(** * JSON-Splora: the editor wrapper of [app/js/Editor.js]

    A shallow embedding of the [Editor] class (validate, formatInput,
    runFilter and the event wiring of the constructor) together with the
    parts of the JavaScript run time the class leans on: values and the
    object store, truthiness, [JSON.stringify(v, null, 2)], a fragment of
    [json5.parse] and a fragment of the scripts that [vm.Script] is asked
    to run. *)

From Stdlib Require Import ZArith Ascii String Lia.
From Stdlib Require Import DecimalFacts DecimalPos DecimalString.
From stdpp Require Import base option list relations.

Local Open Scope string_scope.
Local Open Scope list_scope.

(** ** JavaScript values *)

Module JS.

(** A JavaScript number.  The finite numbers of the model are the
    integers (every document and filter below only needs those); the
    three non-finite doubles are kept because JSON5 text can denote
    them.  [-0] is identified with [0], as [===] does. *)
Inductive number :=
  | NaN
  | Infinity (negative : bool)
  | Int (z : Z).

(** Objects and arrays live in a store and are handled by reference. *)
Definition loc := nat.

Inductive value :=
  | VUndefined
  | VNull
  | VBool (b : bool)
  | VNum (n : number)
  | VStr (s : string)
  | VRef (l : loc).

(** A store cell.  The property list of an object is kept in property
    enumeration order. *)
Inductive cell :=
  | Obj (props : list (string * value))
  | Arr (elems : list value).

Abbreviation heap := (list cell) (only parsing).

(** The value below a reference, read off the store as a tree. *)
#[local] Unset Elimination Schemes.
Inductive tree :=
  | TUndefined
  | TNull
  | TBool (b : bool)
  | TNum (n : number)
  | TStr (s : string)
  | TArr (elems : list tree)
  | TObj (props : list (string * tree)).
#[local] Set Elimination Schemes.

(** Induction on trees, with the hypothesis for every element of an array
    and every property value of an object. *)
Definition tree_ind (P : tree -> Prop)
    (f_undefined : P TUndefined) (f_null : P TNull)
    (f_bool : forall b, P (TBool b)) (f_num : forall n, P (TNum n))
    (f_str : forall s, P (TStr s))
    (f_arr : forall ts, Forall P ts -> P (TArr ts))
    (f_obj : forall ps, Forall (fun p => P (snd p)) ps -> P (TObj ps))
  : forall t, P t :=
  fix F (t : tree) : P t :=
    match t with
    | TUndefined => f_undefined
    | TNull => f_null
    | TBool b => f_bool b
    | TNum n => f_num n
    | TStr s => f_str s
    | TArr ts =>
        f_arr ts ((fix G (ts : list tree) : Forall P ts :=
                     match ts with
                     | [] => List.Forall_nil P
                     | t :: ts' => List.Forall_cons P t ts' (F t) (G ts')
                     end) ts)
    | TObj ps =>
        f_obj ps ((fix G (ps : list (string * tree))
                     : Forall (fun p => P (snd p)) ps :=
                     match ps with
                     | [] => List.Forall_nil _
                     | p :: ps' => List.Forall_cons _ p ps' (F (snd p)) (G ps')
                     end) ps)
    end.

(** ToBoolean: [if (v)] takes the else branch exactly on these. *)
Definition truthy (v : value) : bool :=
  match v with
  | VUndefined | VNull => false
  | VBool b => b
  | VNum NaN => false
  | VNum (Infinity _) => true
  | VNum (Int z) => negb (Z.eqb z 0)
  | VStr s => negb (Nat.eqb (String.length s) 0)
  | VRef _ => true
  end.

(** [v === null] *)
Definition is_null (v : value) : bool :=
  match v with VNull => true | _ => false end.

Definition tree_is_null (t : tree) : bool :=
  match t with TNull => true | _ => false end.

(** *** Allocation of a tree in the store

    [alloc t h] builds the objects of [t] on top of [h] and returns the
    value that denotes [t] (children first, the container last). *)
Fixpoint alloc (t : tree) (h : heap) : value * heap :=
  match t with
  | TUndefined => (VUndefined, h)
  | TNull => (VNull, h)
  | TBool b => (VBool b, h)
  | TNum n => (VNum n, h)
  | TStr s => (VStr s, h)
  | TArr ts =>
      let '(vs, h1) :=
        (fix go (ts : list tree) (h : heap) : list value * heap :=
           match ts with
           | [] => ([], h)
           | t :: ts' =>
               let '(v, h1) := alloc t h in
               let '(vs, h2) := go ts' h1 in
               (v :: vs, h2)
           end) ts h in
      (VRef (length h1), h1 ++ [Arr vs])
  | TObj ps =>
      let '(pvs, h1) :=
        (fix go (ps : list (string * tree)) (h : heap)
           : list (string * value) * heap :=
           match ps with
           | [] => ([], h)
           | p :: ps' =>
               let '(v, h1) := alloc (snd p) h in
               let '(pvs, h2) := go ps' h1 in
               ((fst p, v) :: pvs, h2)
           end) ps h in
      (VRef (length h1), h1 ++ [Obj pvs])
  end.

Fixpoint alloc_list (ts : list tree) (h : heap) : list value * heap :=
  match ts with
  | [] => ([], h)
  | t :: ts' =>
      let '(v, h1) := alloc t h in
      let '(vs, h2) := alloc_list ts' h1 in
      (v :: vs, h2)
  end.

Fixpoint alloc_props (ps : list (string * tree)) (h : heap)
  : list (string * value) * heap :=
  match ps with
  | [] => ([], h)
  | p :: ps' =>
      let '(v, h1) := alloc (snd p) h in
      let '(pvs, h2) := alloc_props ps' h1 in
      ((fst p, v) :: pvs, h2)
  end.

(** *** Reading a value off the store

    [snapshot_at fuel h v] unfolds the object graph below [v].  A graph
    with a cycle has no finite unfolding, and one without is no deeper
    than the store is long, so with [S (length h)] levels the answer is
    [None] exactly on the cyclic graphs (the ones [JSON.stringify]
    refuses with a TypeError). *)
Fixpoint snapshot_at (fuel : nat) (h : heap) (v : value) : option tree :=
  match v with
  | VUndefined => Some TUndefined
  | VNull => Some TNull
  | VBool b => Some (TBool b)
  | VNum n => Some (TNum n)
  | VStr s => Some (TStr s)
  | VRef l =>
      match fuel with
      | O => None
      | S fuel' =>
          match h !! l with
          | None => None
          | Some (Arr vs) =>
              TArr <$> mapM (snapshot_at fuel' h) vs
          | Some (Obj pvs) =>
              TObj <$> mapM (fun p => pair (fst p) <$> snapshot_at fuel' h (snd p)) pvs
          end
      end
  end.

Definition snapshot (h : heap) (v : value) : option tree :=
  snapshot_at (S (length h)) h v.

Fixpoint depth (t : tree) : nat :=
  match t with
  | TArr ts => S (fold_right (fun t d => Nat.max (depth t) d) 0 ts)
  | TObj ps => S (fold_right (fun p d => Nat.max (depth (snd p)) d) 0 ps)
  | _ => 0
  end.

(** *** JSON.stringify(v, null, 2)

    Text is handled as a list of characters. *)
Definition chars (s : string) : list ascii := list_ascii_of_string s.

Definition dquote : ascii := "034"%char.
Definition backslash : ascii := "\"%char.
Definition newline : ascii := "010"%char.

Definition hex_digit (n : N) : ascii :=
  nth (N.to_nat n) (chars "0123456789abcdef") "0"%char.

(** One character of QuoteJSONString: the quote and the backslash are
    escaped, control characters get their short escape where JSON has
    one and [\u00xx] otherwise. *)
Definition escape_char (c : ascii) : list ascii :=
  let n := N_of_ascii c in
  if Ascii.eqb c dquote then [backslash; dquote]
  else if Ascii.eqb c backslash then [backslash; backslash]
  else if N.eqb n 8 then chars "\b"
  else if N.eqb n 9 then chars "\t"
  else if N.eqb n 10 then chars "\n"
  else if N.eqb n 12 then chars "\f"
  else if N.eqb n 13 then chars "\r"
  else if N.ltb n 32 then
    chars "\u00" ++ [hex_digit (n / 16); hex_digit (n mod 16)]
  else [c].

Definition QuoteJSONString (s : string) : list ascii :=
  dquote :: flat_map escape_char (chars s) ++ [dquote].

Definition digits (n : N) : list ascii :=
  chars (NilZero.string_of_uint (N.to_uint n)).

(** Number::toString on the integers, in radix 10. *)
Definition int_to_chars (z : Z) : list ascii :=
  match z with
  | Zneg p => "-"%char :: digits (Npos p)
  | _ => digits (Z.to_N z)
  end.

(** A finite number is written out, the others become [null]. *)
Definition number_to_json (n : number) : list ascii :=
  match n with
  | Int z => int_to_chars z
  | _ => chars "null"
  end.

Definition gap : list ascii := chars "  ".

Fixpoint join (sep : list ascii) (parts : list (list ascii)) : list ascii :=
  match parts with
  | [] => []
  | [p] => p
  | p :: rest => p ++ sep ++ join sep rest
  end.

(** The bracketed, one-item-per-line layout shared by SerializeJSONArray
    and SerializeJSONObject; [indent] is the indentation of the
    container, the items sit one [gap] deeper. *)
Definition layout (open close : ascii) (indent : list ascii)
    (partial : list (list ascii)) : list ascii :=
  match partial with
  | [] => [open; close]
  | _ =>
      let inner := indent ++ gap in
      open :: newline :: inner ++ join ("," %char :: newline :: inner) partial
        ++ newline :: indent ++ [close]
  end.

(** SerializeJSONProperty; [None] is the [undefined] that makes an object
    drop the property and an array write [null] in its place. *)
Fixpoint SerializeJSONProperty (indent : list ascii) (t : tree)
  : option (list ascii) :=
  match t with
  | TUndefined => None
  | TNull => Some (chars "null")
  | TBool true => Some (chars "true")
  | TBool false => Some (chars "false")
  | TNum n => Some (number_to_json n)
  | TStr s => Some (QuoteJSONString s)
  | TArr ts =>
      let partial :=
        (fix go (ts : list tree) : list (list ascii) :=
           match ts with
           | [] => []
           | t :: ts' =>
               default (chars "null") (SerializeJSONProperty (indent ++ gap) t)
                 :: go ts'
           end) ts in
      Some (layout "[" "]" indent partial)
  | TObj ps =>
      let partial :=
        (fix go (ps : list (string * tree)) : list (list ascii) :=
           match ps with
           | [] => []
           | p :: ps' =>
               match SerializeJSONProperty (indent ++ gap) (snd p) with
               | Some str =>
                   (QuoteJSONString (fst p) ++ ":"%char :: " "%char :: str) :: go ps'
               | None => go ps'
               end
           end) ps in
      Some (layout "{" "}" indent partial)
  end.

(** What a call of a function that may throw comes to. *)
Inductive completion (A : Type) :=
  | Returns (a : A)
  | Throws.
Arguments Returns {A} a.
Arguments Throws {A}.

(** [JSON.stringify(v, null, 2)]: a string, or [undefined] (here [None])
    when [v] itself is [undefined], or a TypeError on a cyclic value. *)
Definition JSON_stringify (h : heap) (v : value) : completion (option string) :=
  match snapshot h v with
  | None => Throws
  | Some t => Returns (string_of_list_ascii <$> SerializeJSONProperty [] t)
  end.

End JS.

Import JS.

(** ** The Editor class *)

(** What the class emits through its EventEmitter side.  The listeners
    are not part of the class; an emission is recorded in the order it is
    made. *)
Inductive event :=
  | InputValid
  | FilterEmpty
  | FilterValid (result : value) (type : string)
  | FilterInvalid.

(** The object handed to [runInNewContext]. *)
Record sandbox := Sandbox { x : value; result : value }.

(** How the promise of [jq.run] settles. *)
Inductive jq_outcome :=
  | Resolved (result : tree)
  | Rejected.

(** The instance: [this.data], the store its objects live in, the two
    widgets ([this.editor], [this.filter]), and what has been observed of
    it so far. *)
Record Editor := {
  data : value;
  store : heap;
  editor_value : string;           (* what this.editor.getValue() returns *)
  filter_val : option string;      (* what this.filter.val() returns *)
  listening : bool;                (* handleChangeEvents has run *)
  setValue_calls : list (option string);  (* arguments of editor.setValue, oldest first *)
  emitted : list event;            (* oldest first *)
  pending : list jq_outcome        (* promises of jq.run not yet settled *)
}.

Definition set_data (v : value) (st : Editor) : Editor :=
  {| data := v; store := store st; editor_value := editor_value st;
     filter_val := filter_val st; listening := listening st;
     setValue_calls := setValue_calls st; emitted := emitted st;
     pending := pending st |}.

Definition set_store (h : heap) (st : Editor) : Editor :=
  {| data := data st; store := h; editor_value := editor_value st;
     filter_val := filter_val st; listening := listening st;
     setValue_calls := setValue_calls st; emitted := emitted st;
     pending := pending st |}.

Definition set_editor_value (s : string) (st : Editor) : Editor :=
  {| data := data st; store := store st; editor_value := s;
     filter_val := filter_val st; listening := listening st;
     setValue_calls := setValue_calls st; emitted := emitted st;
     pending := pending st |}.

Definition set_filter_val (f : option string) (st : Editor) : Editor :=
  {| data := data st; store := store st; editor_value := editor_value st;
     filter_val := f; listening := listening st;
     setValue_calls := setValue_calls st; emitted := emitted st;
     pending := pending st |}.

Definition set_listening (b : bool) (st : Editor) : Editor :=
  {| data := data st; store := store st; editor_value := editor_value st;
     filter_val := filter_val st; listening := b;
     setValue_calls := setValue_calls st; emitted := emitted st;
     pending := pending st |}.

Definition log_setValue (arg : option string) (st : Editor) : Editor :=
  {| data := data st; store := store st; editor_value := editor_value st;
     filter_val := filter_val st; listening := listening st;
     setValue_calls := setValue_calls st ++ [arg]; emitted := emitted st;
     pending := pending st |}.

Definition emit (e : event) (st : Editor) : Editor :=
  {| data := data st; store := store st; editor_value := editor_value st;
     filter_val := filter_val st; listening := listening st;
     setValue_calls := setValue_calls st; emitted := emitted st ++ [e];
     pending := pending st |}.

Definition set_pending (ps : list jq_outcome) (st : Editor) : Editor :=
  {| data := data st; store := store st; editor_value := editor_value st;
     filter_val := filter_val st; listening := listening st;
     setValue_calls := setValue_calls st; emitted := emitted st;
     pending := ps |}.

Section Coordinator.

(** The modules the file requires.  [json5_parse] answers [None] where
    [json5.parse] throws; [vm_run code sb h] is
    [new vm.Script(code).runInNewContext(sb)] on store [h], answering
    the sandbox and the store as the script leaves them; [jq_run] is the
    outcome of the promise that [jq.run] returns, settled by the input
    the call was given. *)
Variable welcomeMessage : string.
Variable json5_parse : string -> option tree.
Variable vm_run : string -> sandbox -> heap -> completion sandbox * heap.
Variable jq_run : string -> heap -> value -> jq_outcome.

(** [validate()] *)
Definition validate (st : Editor) : bool * Editor :=
  let input := editor_value st in
  match json5_parse input with
  | Some t =>
      let '(v, h) := alloc t (store st) in
      (true, emit InputValid (set_data v (set_store h st)))
  | None => (false, set_data VNull st)
  end.

(** [this.editor.setValue(arg)].  The widget takes the text and signals
    [change] before it returns, which runs the handler installed by
    [handleChangeEvents] once that has happened.  What the widget makes
    of an argument that is not a string is its own business: the call is
    recorded and nothing else is said about it. *)
Definition setValue (arg : option string) (st : Editor) : Editor :=
  let st1 := log_setValue arg st in
  match arg with
  | Some s =>
      let st2 := set_editor_value s st1 in
      if listening st2 then snd (validate st2) else st2
  | None => st1
  end.

(** [formatInput()] *)
Definition formatInput (st : Editor) : completion Editor :=
  if negb (is_null (data st)) then
    match JSON_stringify (store st) (data st) with
    | Returns arg => Returns (setValue arg st)
    | Throws => Throws
    end
  else Returns st.

(** The promise chain hung on [jq.run(...)]: the [then] handler on a
    resolution, the [catch] handler on a rejection. *)
Definition on_settled (o : jq_outcome) (st : Editor) : Editor :=
  match o with
  | Resolved t =>
      if tree_is_null t then emit FilterInvalid st
      else
        let '(v, h) := alloc t (store st) in
        emit (FilterValid v "jq") (set_store h st)
  | Rejected => emit FilterInvalid st
  end.

(** [!filter || !filter.length] *)
Definition filter_is_empty (filter : option string) : bool :=
  match filter with
  | None => true
  | Some f => negb (truthy (VStr f)) || Nat.eqb (String.length f) 0
  end.

(** [runFilter()] up to its return; a promise it leaves behind is in
    [pending]. *)
Definition runFilter (st : Editor) : Editor :=
  let filter := filter_val st in
  if filter_is_empty filter then emit FilterEmpty st
  else
    let f := default "" filter in
    let code := ("result = x" ++ f)%string in
    let sb := {| x := data st; result := VNull |} in
    match vm_run code sb (store st) with
    | (Returns sb', h) =>
        let st1 := set_store h st in
        if truthy (result sb') then emit (FilterValid (result sb') "js") st1
        else emit FilterInvalid st1
    | (Throws, h) =>
        let st1 := set_store h st in
        set_pending (pending st1 ++ [jq_run f (store st1) (data st1)]) st1
    end.

(** The event loop settles the [i]-th outstanding promise. *)
Definition settle (i : nat) (st : Editor) : option Editor :=
  match pending st !! i with
  | Some o => Some (on_settled o (set_pending (delete i (pending st)) st))
  | None => None
  end.

(** Settle what is outstanding, oldest first. *)
Fixpoint drain_at (n : nat) (st : Editor) : Editor :=
  match n with
  | O => st
  | S n' =>
      match settle 0 st with
      | Some st' => drain_at n' st'
      | None => st
      end
  end.

Definition drain (st : Editor) : Editor := drain_at (length (pending st)) st.

(** [handleChangeEvents()] and the three handlers it installs. *)
Definition handleChangeEvents (st : Editor) : Editor := set_listening true st.

Definition on_change (st : Editor) : Editor := snd (validate st).

Definition on_inputRead (origin : string) (st : Editor) : completion Editor :=
  if String.eqb "paste" origin then formatInput (snd (validate st))
  else Returns st.

Definition on_keyup (st : Editor) : Editor := runFilter st.

(** [new Editor(el, filter)]: [el] is the text the textarea holds and
    [filter] what the filter input holds.  [this.data] is not assigned. *)
Definition constructor (el : string) (filter : option string) : Editor :=
  let this :=
    {| data := VUndefined; store := []; editor_value := el;
       filter_val := filter; listening := false; setValue_calls := [];
       emitted := []; pending := [] |} in
  handleChangeEvents (setValue (Some welcomeMessage) this).

(** The user edits the text, or the filter. *)
Definition type_text (s : string) (st : Editor) : Editor :=
  on_change (set_editor_value s st).

Definition type_filter (f : option string) (st : Editor) : Editor :=
  on_keyup (set_filter_val f st).

End Coordinator.

(** The two events that end a filter run. *)
Definition terminal (e : event) : bool :=
  match e with
  | FilterValid _ _ | FilterInvalid => true
  | _ => false
  end.

Definition terminal_count (es : list event) : nat :=
  length (List.filter terminal es).

(** The document behind [this.data], as a tree. *)
Definition document (st : Editor) : option tree := snapshot (store st) (data st).

(** The event loop at work on the promises: in each step one of the
    outstanding promises settles, in whatever order. *)
Inductive settles : Editor -> Editor -> Prop :=
  | settles_done st : settles st st
  | settles_step i st st1 st2 :
      settle i st = Some st1 -> settles st1 st2 -> settles st st2.

(** The text of the script that [runFilter] builds, and the sandbox it
    runs it in. *)
Definition code_of (f : string) : string := ("result = x" ++ f)%string.

Definition sandbox_of (st : Editor) : sandbox := {| x := data st; result := VNull |}.

(** ** A fragment of json5.parse

    The reader below follows the JSON5 grammar on the texts it accepts:
    white space, the literals, signed decimal integers, [NaN] and
    [Infinity], strings in either quote with their escapes, arrays and
    objects with trailing commas, quoted and bare keys.  Comments,
    fractions, exponents, hexadecimal numbers and characters beyond ASCII
    are outside the fragment: on those texts the answer is [None] although
    json5 itself would read them, so [None] is only to be read as a syntax
    error on the texts of the fragment. *)

Module JSON5.

Definition is_ws (c : ascii) : bool :=
  let n := N_of_ascii c in
  N.eqb n 32 || N.eqb n 9 || N.eqb n 10 || N.eqb n 11 || N.eqb n 12 || N.eqb n 13.

Fixpoint skip_ws (s : list ascii) : list ascii :=
  match s with
  | c :: r => if is_ws c then skip_ws r else s
  | [] => []
  end.

Definition is_digit (c : ascii) : bool :=
  let n := N_of_ascii c in N.leb 48 n && N.leb n 57.

Definition digit_val (c : ascii) : N := N_of_ascii c - 48.

Definition hex_val (c : ascii) : option N :=
  let n := N_of_ascii c in
  if N.leb 48 n && N.leb n 57 then Some (n - 48)%N
  else if N.leb 97 n && N.leb n 102 then Some (n - 87)%N
  else if N.leb 65 n && N.leb n 70 then Some (n - 55)%N
  else None.

Fixpoint strip (p s : list ascii) : option (list ascii) :=
  match p, s with
  | [], _ => Some s
  | a :: p', b :: s' => if Ascii.eqb a b then strip p' s' else None
  | _ :: _, [] => None
  end.

(** The digits of a decimal integer, most significant first. *)
Fixpoint scan_digits (acc : N) (s : list ascii) : N * list ascii :=
  match s with
  | c :: r => if is_digit c then scan_digits (10 * acc + digit_val c) r else (acc, s)
  | [] => (acc, [])
  end.

(** After a leading [0] the integer part is over. *)
Definition parse_magnitude (s : list ascii) : option (N * list ascii) :=
  match s with
  | c :: r =>
      if Ascii.eqb c "0" then Some (0%N, r)
      else if is_digit c then Some (scan_digits 0 s)
      else None
  | [] => None
  end.

Definition parse_unsigned (negative : bool) (s : list ascii)
  : option (tree * list ascii) :=
  match strip (chars "Infinity") s with
  | Some r => Some (TNum (Infinity negative), r)
  | None =>
      match strip (chars "NaN") s with
      | Some r => Some (TNum NaN, r)
      | None =>
          match parse_magnitude s with
          | Some (n, r) =>
              Some (TNum (Int (if negative then - Z.of_N n else Z.of_N n)), r)
          | None => None
          end
      end
  end.

Definition parse_scalar (s : list ascii) : option (tree * list ascii) :=
  match s with
  | [] => None
  | c :: r =>
      if Ascii.eqb c "n" then pair TNull <$> strip (chars "ull") r
      else if Ascii.eqb c "t" then pair (TBool true) <$> strip (chars "rue") r
      else if Ascii.eqb c "f" then pair (TBool false) <$> strip (chars "alse") r
      else if Ascii.eqb c "-" then parse_unsigned true r
      else if Ascii.eqb c "+" then parse_unsigned false r
      else parse_unsigned false s
  end.

Definition char_of_code (n : N) : option ascii :=
  if N.ltb n 128 then Some (ascii_of_N n) else None.

(** The body of a string up to the closing [quote]. *)
Fixpoint parse_string_body (quote : ascii) (s : list ascii)
  : option (list ascii * list ascii) :=
  match s with
  | [] => None
  | c :: r =>
      if Ascii.eqb c quote then Some ([], r)
      else if Ascii.eqb c backslash then
        match r with
        | [] => None
        | e :: r1 =>
            let keep (c : ascii) (rest : list ascii) :=
              match parse_string_body quote rest with
              | Some (cs, r') => Some (c :: cs, r')
              | None => None
              end in
            if Ascii.eqb e "b" then keep "008"%char r1
            else if Ascii.eqb e "f" then keep "012"%char r1
            else if Ascii.eqb e "n" then keep "010"%char r1
            else if Ascii.eqb e "r" then keep "013"%char r1
            else if Ascii.eqb e "t" then keep "009"%char r1
            else if Ascii.eqb e "v" then keep "011"%char r1
            else if Ascii.eqb e "0" then
              match r1 with
              | d :: _ => if is_digit d then None else keep "000"%char r1
              | [] => keep "000"%char r1
              end
            else if is_digit e then None
            else if Ascii.eqb e "x" then
              match r1 with
              | h1 :: h2 :: r2 =>
                  match hex_val h1, hex_val h2 with
                  | Some a, Some b =>
                      match char_of_code (16 * a + b) with
                      | Some c' => keep c' r2
                      | None => None
                      end
                  | _, _ => None
                  end
              | _ => None
              end
            else if Ascii.eqb e "u" then
              match r1 with
              | h1 :: h2 :: h3 :: h4 :: r2 =>
                  match hex_val h1, hex_val h2, hex_val h3, hex_val h4 with
                  | Some a, Some b, Some c1, Some d =>
                      match char_of_code (4096 * a + 256 * b + 16 * c1 + d) with
                      | Some c' => keep c' r2
                      | None => None
                      end
                  | _, _, _, _ => None
                  end
              | _ => None
              end
            else if Ascii.eqb e newline then parse_string_body quote r1
            else if Ascii.eqb e "013" then
              match r1 with
              | l :: r2 =>
                  if Ascii.eqb l newline then parse_string_body quote r2
                  else parse_string_body quote r1
              | [] => None
              end
            else keep e r1
        end
      else if Ascii.eqb c newline || Ascii.eqb c "013" then None
      else
        match parse_string_body quote r with
        | Some (cs, r') => Some (c :: cs, r')
        | None => None
        end
  end.

Definition is_quote (c : ascii) : bool :=
  Ascii.eqb c dquote || Ascii.eqb c "'".

Definition is_id_start (c : ascii) : bool :=
  let n := N_of_ascii c in
  (N.leb 97 n && N.leb n 122) || (N.leb 65 n && N.leb n 90)
  || Ascii.eqb c "$" || Ascii.eqb c "_".

Definition is_id_part (c : ascii) : bool := is_id_start c || is_digit c.

Fixpoint scan_id (s : list ascii) : list ascii * list ascii :=
  match s with
  | c :: r =>
      if is_id_part c then let '(cs, r') := scan_id r in (c :: cs, r')
      else ([], s)
  | [] => ([], [])
  end.

(** A property name: a string, or a bare identifier. *)
Definition parse_key (s : list ascii) : option (string * list ascii) :=
  match s with
  | [] => None
  | c :: r =>
      if is_quote c then
        match parse_string_body c r with
        | Some (cs, r') => Some (string_of_list_ascii cs, r')
        | None => None
        end
      else if is_id_start c then
        let '(cs, r') := scan_id s in Some (string_of_list_ascii cs, r')
      else None
  end.

(** [obj[k] = v] on the property list: an own property keeps its place, a
    new one goes last. *)
Fixpoint obj_put {A} (k : string) (v : A) (props : list (string * A))
  : list (string * A) :=
  match props with
  | [] => [(k, v)]
  | p :: ps => if String.eqb (fst p) k then (k, v) :: ps else p :: obj_put k v ps
  end.

Section Items.

Variable parse_value : list ascii -> option (tree * list ascii).

(** After the opening bracket: elements up to the closing one. *)
Fixpoint parse_elements (n : nat) (acc : list tree) (s : list ascii)
  : option (tree * list ascii) :=
  match n with
  | O => None
  | S n' =>
      match skip_ws s with
      | [] => None
      | c :: r =>
          if Ascii.eqb c "]" then Some (TArr (rev acc), r)
          else
            match parse_value (c :: r) with
            | None => None
            | Some (t, r1) =>
                match skip_ws r1 with
                | [] => None
                | d :: r2 =>
                    if Ascii.eqb d "," then parse_elements n' (t :: acc) r2
                    else if Ascii.eqb d "]" then Some (TArr (rev (t :: acc)), r2)
                    else None
                end
            end
      end
  end.

(** After the opening brace: members up to the closing one. *)
Fixpoint parse_members (n : nat) (acc : list (string * tree)) (s : list ascii)
  : option (tree * list ascii) :=
  match n with
  | O => None
  | S n' =>
      match skip_ws s with
      | [] => None
      | c :: r =>
          if Ascii.eqb c "}" then Some (TObj acc, r)
          else
            match parse_key (c :: r) with
            | None => None
            | Some (k, r1) =>
                match skip_ws r1 with
                | [] => None
                | d :: r2 =>
                    if Ascii.eqb d ":" then
                      match parse_value r2 with
                      | None => None
                      | Some (v, r3) =>
                          match skip_ws r3 with
                          | [] => None
                          | e :: r4 =>
                              if Ascii.eqb e "," then
                                parse_members n' (obj_put k v acc) r4
                              else if Ascii.eqb e "}" then
                                Some (TObj (obj_put k v acc), r4)
                              else None
                          end
                      end
                    else None
                end
            end
      end
  end.

End Items.

Fixpoint parse_value (fuel : nat) (s : list ascii) : option (tree * list ascii) :=
  match fuel with
  | O => None
  | S fuel' =>
      match skip_ws s with
      | [] => None
      | c :: r =>
          if Ascii.eqb c "[" then parse_elements (parse_value fuel') fuel' [] r
          else if Ascii.eqb c "{" then parse_members (parse_value fuel') fuel' [] r
          else if is_quote c then
            match parse_string_body c r with
            | Some (cs, r') => Some (TStr (string_of_list_ascii cs), r')
            | None => None
            end
          else parse_scalar (c :: r)
      end
  end.

(** One value, and nothing but white space after it. *)
Definition parse_text (s : list ascii) : option tree :=
  match parse_value (S (length s)) s with
  | Some (t, r) => match skip_ws r with [] => Some t | _ :: _ => None end
  | None => None
  end.

(** The values of the fragment: integers that a double holds exactly,
    ASCII strings, objects whose keys are distinct (as [obj_put] leaves
    them), do not begin with a digit (index-like keys are enumerated
    first by JavaScript, whatever the order of the text) and are not
    [__proto__]. *)
Definition ascii_only (s : string) : bool :=
  forallb (fun c => N.ltb (N_of_ascii c) 128) (chars s).

Definition key_ok (k : string) : bool :=
  ascii_only k && negb (String.eqb k "__proto__")
  && match chars k with c :: _ => negb (is_digit c) | [] => true end.

Fixpoint distinct (ks : list string) : bool :=
  match ks with
  | [] => true
  | k :: ks' => negb (existsb (String.eqb k) ks') && distinct ks'
  end.

Definition safe_integer (z : Z) : bool :=
  Z.ltb (- 2 ^ 53) z && Z.ltb z (2 ^ 53).

Fixpoint in_fragment (t : tree) : bool :=
  match t with
  | TUndefined => false
  | TNull | TBool _ => true
  | TNum (Int z) => safe_integer z
  | TNum _ => true
  | TStr s => ascii_only s
  | TArr ts => forallb in_fragment ts
  | TObj ps =>
      distinct (map fst ps)
      && forallb (fun p => key_ok (fst p) && in_fragment (snd p)) ps
  end.

Definition parse (s : string) : option tree :=
  match parse_text (chars s) with
  | Some t => if in_fragment t then Some t else None
  | None => None
  end.

End JSON5.

(** ** A fragment of the scripts handed to vm.Script

    [runFilter] runs [result = x<filter>] with the document bound to [x].
    The scripts read here are the access chains [result = x.a.b[1]] and
    the assignments of an integer through such a chain,
    [result = x.a.b = 5]; the object that [x] names is the one
    [this.data] names, so a write through [x] lands in the document. *)

Module Script.

Inductive accessor :=
  | Dot (name : string)
  | Idx (i : N).

(** What running a script comes to: it completes, it throws a TypeError,
    or it is not one of the scripts read here. *)
Inductive outcome :=
  | Done (sb : sandbox) (h : heap)
  | TypeError
  | Unsupported.

Fixpoint parse_chain (fuel : nat) (s : list ascii) : list accessor * list ascii :=
  match fuel with
  | O => ([], s)
  | S fuel' =>
      match s with
      | c :: r =>
          if Ascii.eqb c "." then
            match r with
            | d :: _ =>
                if JSON5.is_id_start d then
                  let '(cs, r') := JSON5.scan_id r in
                  let '(accs, r'') := parse_chain fuel' r' in
                  (Dot (string_of_list_ascii cs) :: accs, r'')
                else ([], s)
            | [] => ([], s)
            end
          else if Ascii.eqb c "[" then
            match JSON5.parse_magnitude r with
            | Some (i, d :: r') =>
                if Ascii.eqb d "]" then
                  let '(accs, r'') := parse_chain fuel' r' in
                  (Idx i :: accs, r'')
                else ([], s)
            | _ => ([], s)
            end
          else ([], s)
      | [] => ([], [])
      end
  end.

Fixpoint skip_spaces (s : list ascii) : list ascii :=
  match s with
  | c :: r => if Ascii.eqb c " " then skip_spaces r else s
  | [] => []
  end.

Definition parse_integer (s : list ascii) : option (Z * list ascii) :=
  match s with
  | c :: r =>
      if Ascii.eqb c "-" then
        match JSON5.parse_magnitude r with
        | Some (n, r') => Some ((- Z.of_N n)%Z, r')
        | None => None
        end
      else
        match JSON5.parse_magnitude s with
        | Some (n, r') => Some (Z.of_N n, r')
        | None => None
        end
  | [] => None
  end.

(** [result = x<chain>] or [result = x<chain> = <integer>] *)
Definition parse_script (code : string)
  : option (list accessor * option Z) :=
  match JSON5.strip (chars "result = x") (chars code) with
  | None => None
  | Some s =>
      let '(accs, r) := parse_chain (length s) s in
      match skip_spaces r with
      | [] => Some (accs, None)
      | c :: r1 =>
          if Ascii.eqb c "=" then
            match parse_integer (skip_spaces r1) with
            | Some (z, r2) =>
                match skip_spaces r2 with
                | [] => if JSON5.safe_integer z then Some (accs, Some z) else None
                | _ :: _ => None
                end
            | None => None
            end
          else None
      end
  end.

(** Names that an object answers through Object.prototype. *)
Definition inherited : list string :=
  [ "constructor"; "hasOwnProperty"; "isPrototypeOf"; "propertyIsEnumerable";
    "toLocaleString"; "toString"; "valueOf"; "__proto__"; "__defineGetter__";
    "__defineSetter__"; "__lookupGetter__"; "__lookupSetter__" ].

Definition lookup_prop {A} (k : string) (ps : list (string * A)) : option A :=
  snd <$> List.find (fun p => String.eqb (fst p) k) ps.

Definition key_of (a : accessor) : string :=
  match a with
  | Dot name => name
  | Idx i => string_of_list_ascii (digits i)
  end.

Inductive got :=
  | Got (v : value)
  | GotTypeError
  | GotUnsupported.

(** [base<a>] *)
Definition get (h : heap) (base : value) (a : accessor) : got :=
  match base with
  | VUndefined | VNull => GotTypeError
  | VRef l =>
      match h !! l with
      | Some (Obj ps) =>
          match lookup_prop (key_of a) ps with
          | Some v => Got v
          | None =>
              if existsb (String.eqb (key_of a)) inherited then GotUnsupported
              else Got VUndefined
          end
      | Some (Arr vs) =>
          match a with
          | Idx i => Got (default VUndefined (vs !! N.to_nat i))
          | Dot name =>
              if String.eqb name "length" then Got (VNum (Int (Z.of_nat (length vs))))
              else GotUnsupported
          end
      | None => GotUnsupported
      end
  | _ => GotUnsupported
  end.

Fixpoint get_chain (h : heap) (base : value) (accs : list accessor) : got :=
  match accs with
  | [] => Got base
  | a :: accs' =>
      match get h base a with
      | Got v => get_chain h v accs'
      | other => other
      end
  end.

(** [base<a> = v], on the store. *)
Definition put (h : heap) (base : value) (a : accessor) (v : value)
  : option (option heap) :=
  match base with
  | VUndefined | VNull => Some None
  | VRef l =>
      match h !! l with
      | Some (Obj ps) =>
          if existsb (String.eqb (key_of a)) inherited then None
          else if JSON5.key_ok (key_of a) then
            Some (Some (<[l := Obj (JSON5.obj_put (key_of a) v ps)]> h))
          else None
      | Some (Arr vs) =>
          match a with
          | Idx i =>
              if Nat.ltb (N.to_nat i) (length vs)
              then Some (Some (<[l := Arr (<[N.to_nat i := v]> vs)]> h))
              else None
          | Dot _ => None
          end
      | None => None
      end
  | _ => None
  end.

Definition run (code : string) (sb : sandbox) (h : heap) : outcome :=
  match parse_script code with
  | None => Unsupported
  | Some (accs, None) =>
      match get_chain h (x sb) accs with
      | Got v => Done {| x := x sb; result := v |} h
      | GotTypeError => TypeError
      | GotUnsupported => Unsupported
      end
  | Some (accs, Some z) =>
      let v := VNum (Int z) in
      match rev accs with
      | [] => Done {| x := v; result := v |} h
      | last :: init =>
          match get_chain h (x sb) (rev init) with
          | Got base =>
              match put h base last v with
              | Some (Some h') => Done {| x := x sb; result := v |} h'
              | Some None => TypeError
              | None => Unsupported
              end
          | GotTypeError => TypeError
          | GotUnsupported => Unsupported
          end
      end
  end.

(** The evaluator as [runFilter] sees it.  A script that is not read here
    is answered like one that throws; the runs below stay inside the
    fragment. *)
Definition vm_run (code : string) (sb : sandbox) (h : heap)
  : completion sandbox * heap :=
  match run code sb h with
  | Done sb' h' => (Returns sb', h')
  | TypeError | Unsupported => (Throws, h)
  end.

End Script.

(** A query evaluator to close the examples with: its promise is always
    rejected. *)
Definition jq_rejects (filter : string) (h : heap) (v : value) : jq_outcome :=
  Rejected.

(** A query evaluator whose promise settles as [o], whatever it is asked. *)
Definition jq_settles (o : jq_outcome) (filter : string) (h : heap) (v : value)
  : jq_outcome := o.

(** ** Worked instances *)

(** JSON text written with ['] for the double quote. *)
Fixpoint json_text (s : string) : string :=
  match s with
  | EmptyString => EmptyString
  | String c s' => String (if Ascii.eqb c "'" then dquote else c) (json_text s')
  end.

(** A fresh editor (the welcome text stands for the module that is
    required), then the user types [text] and [filter]. *)
Definition fresh : Editor := constructor "Welcome" JSON5.parse "" None.

Definition session (text : string) (filter : option string) : Editor :=
  set_filter_val filter (type_text JSON5.parse text fresh).

Definition run_session (text : string) (filter : option string) : Editor :=
  runFilter Script.vm_run jq_rejects (session text filter).


(** ** Notions for reading back what JSON.stringify writes *)

(** A tree without [NaN] and the infinities. *)
Fixpoint finite (t : tree) : bool :=
  match t with
  | TNum (Int _) => true
  | TNum _ => false
  | TArr ts => forallb finite ts
  | TObj ps => forallb (fun p => finite (snd p)) ps
  | _ => true
  end.

(** The levels of reading a tree takes; its text is at least as long. *)
Fixpoint size (t : tree) : nat :=
  match t with
  | TArr ts => 2 + fold_right (fun t n => size t + n) 0 ts
  | TObj ps => 2 + fold_right (fun p n => size (snd p) + n) 0 ps
  | _ => 1
  end.

(** The value of a run of decimal digits read after [acc]. *)
Fixpoint uint_val (d : Decimal.uint) (acc : N) : N :=
  match d with
  | Decimal.Nil => acc
  | Decimal.D0 d' => uint_val d' (10 * acc + 0)
  | Decimal.D1 d' => uint_val d' (10 * acc + 1)
  | Decimal.D2 d' => uint_val d' (10 * acc + 2)
  | Decimal.D3 d' => uint_val d' (10 * acc + 3)
  | Decimal.D4 d' => uint_val d' (10 * acc + 4)
  | Decimal.D5 d' => uint_val d' (10 * acc + 5)
  | Decimal.D6 d' => uint_val d' (10 * acc + 6)
  | Decimal.D7 d' => uint_val d' (10 * acc + 7)
  | Decimal.D8 d' => uint_val d' (10 * acc + 8)
  | Decimal.D9 d' => uint_val d' (10 * acc + 9)
  end.

(** What may follow a number: the end of the text, or a character that
    is not a digit. *)
Definition no_digit_ahead (rest : list ascii) : Prop :=
  match rest with
  | [] => True
  | c :: _ => JSON5.is_digit c = false
  end.

(** What follows the first item of a layout. *)
Fixpoint layout_tail (close : ascii) (indent : list ascii)
    (partial : list (list ascii)) : list ascii :=
  match partial with
  | [] => newline :: indent ++ [close]
  | p :: ps => ","%char :: newline :: (indent ++ gap) ++ p ++ layout_tail close indent ps
  end.

(** A serialized value begins with a character that is neither white
    space nor a closing bracket. *)
Definition starts_value (s : list ascii) : Prop :=
  exists c s', s = c :: s' /\ JSON5.is_ws c = false
               /\ Ascii.eqb c "]" = false /\ Ascii.eqb c "}" = false.

(** The text [s] is read by [pv] as [t], whatever follows. *)
Definition reads_as (pv : list ascii -> option (tree * list ascii))
    (t : tree) (s : list ascii) : Prop :=
  starts_value s
  /\ forall rest, no_digit_ahead rest -> pv (s ++ rest) = Some (t, rest).

(** The text [s] is read as the member [p] of an object: the key in
    double quotes, a colon and a space, the value. *)
Definition member_reads_as (pv : list ascii -> option (tree * list ascii))
    (p : string * tree) (s : list ascii) : Prop :=
  JSON5.ascii_only (fst p) = true
  /\ exists sv,
       s = QuoteJSONString (fst p) ++ ":"%char :: " "%char :: sv
       /\ forall rest, no_digit_ahead rest ->
            pv (" "%char :: sv ++ rest) = Some (snd p, rest).

(** [t], serialized at [indent], is read back by [pv]. *)
Definition reads (pv : list ascii -> option (tree * list ascii))
    (indent : list ascii) (t : tree) : Prop :=
  exists s, SerializeJSONProperty indent t = Some s /\ reads_as pv t s.

(** Equations between lists built with [::] and [++]. *)
Ltac list_eq :=
  repeat first [rewrite <- !app_assoc | progress cbn [app]]; reflexivity.

(** ** The editor in use

    What can happen to an editor once it is built: the user changes the
    text or the filter in the widgets, a widget signals one of the events
    that [handleChangeEvents] listens to, a promise of [jq.run] settles,
    or [formatInput] is called from outside.  A handler that throws ends
    there; the steps are the ones that return. *)

Section Use.

Variable json5_parse : string -> option tree.
Variable vm_run : string -> sandbox -> heap -> completion sandbox * heap.
Variable jq_run : string -> heap -> value -> jq_outcome.

Inductive step : Editor -> Editor -> Prop :=
  | step_edit_text s st : step st (set_editor_value s st)
  | step_edit_filter f st : step st (set_filter_val f st)
  | step_change st : step st (on_change json5_parse st)
  | step_inputRead origin st st' :
      on_inputRead json5_parse origin st = Returns st' -> step st st'
  | step_keyup st : step st (on_keyup vm_run jq_run st)
  | step_settle i st st' : settle i st = Some st' -> step st st'
  | step_formatInput st st' :
      formatInput json5_parse st = Returns st' -> step st st'.

End Use.

(** The filter runs accounted for: the outcome events emitted and the
    promises still outstanding. *)
Definition outcomes (st : Editor) : nat :=
  terminal_count (emitted st) + length (pending st).

(** A query evaluator that resolves with the filter text it was given, so
    that two requests can be told apart by their results. *)
Definition jq_echo (filter : string) (h : heap) (v : value) : jq_outcome :=
  Resolved (TStr filter).

(** ** Sessions

    A session is the list of the things that happen to an editor, in
    order.  [perform] does one of them, as the handlers installed by
    [handleChangeEvents] and the methods of the class do it; it stops
    ([None]) where a handler throws or where there is no promise to
    settle. *)

Inductive action : Type :=
  | EditText (s : string)
  | EditFilter (f : option string)
  | Change
  | InputRead (origin : string)
  | Keyup
  | Settle (i : nat)
  | FormatInput.

Section Sessions.

Variable json5_parse : string -> option tree.
Variable vm_run : string -> sandbox -> heap -> completion sandbox * heap.
Variable jq_run : string -> heap -> value -> jq_outcome.

Definition perform (a : action) (st : Editor) : option Editor :=
  match a with
  | EditText s => Some (set_editor_value s st)
  | EditFilter f => Some (set_filter_val f st)
  | Change => Some (on_change json5_parse st)
  | InputRead origin =>
      match on_inputRead json5_parse origin st with
      | Returns st' => Some st'
      | Throws => None
      end
  | Keyup => Some (on_keyup vm_run jq_run st)
  | Settle i => settle i st
  | FormatInput =>
      match formatInput json5_parse st with
      | Returns st' => Some st'
      | Throws => None
      end
  end.

Fixpoint perform_all (acts : list action) (st : Editor) : option Editor :=
  match acts with
  | [] => Some st
  | a :: acts' =>
      match perform a st with
      | Some st' => perform_all acts' st'
      | None => None
      end
  end.

(** The filter runs a session asks for: one for each key-up in the
    filter field that finds text in it. *)
Definition requested (a : action) (st : Editor) : nat :=
  match a with
  | Keyup => if filter_is_empty (filter_val st) then 0 else 1
  | _ => 0
  end.

Fixpoint requests (acts : list action) (st : Editor) : nat :=
  match acts with
  | [] => 0
  | a :: acts' =>
      match perform a st with
      | Some st' => requested a st + requests acts' st'
      | None => 0
      end
  end.

End Sessions.

(** * Properties *)

(** ** The models at work *)

Example stringify_nested :
  JSON_stringify [Arr [VNum (Int 1); VNum NaN]; Obj [("a", VRef 0); ("b", VStr "x"); ("u", VUndefined)]]
    (VRef 1)
  = Returns (Some (string_of_list_ascii
      (chars "{" ++ newline :: chars "  " ++ dquote :: chars "a" ++ dquote :: chars ": ["
       ++ newline :: chars "    1," ++ newline :: chars "    null" ++ newline :: chars "  ],"
       ++ newline :: chars "  " ++ dquote :: chars "b" ++ dquote :: chars ": "
       ++ dquote :: chars "x" ++ dquote :: newline :: chars "}"))).
Proof. reflexivity. Qed.

Example json5_nested :
  JSON5.parse "{a: {'b': [1, -2, +3,], c: 'x\ty'}, d: [NaN, -Infinity, null, true]}"
  = Some (TObj [("a", TObj [("b", TArr [TNum (Int 1); TNum (Int (-2)); TNum (Int 3)]);
                            ("c", TStr (String "x" (String "009" "y"))) ]);
                ("d", TArr [TNum NaN; TNum (Infinity true); TNull; TBool true])]).
Proof. vm_compute. reflexivity. Qed.

Example script_get :
  Script.run "result = x.a.b[1]" {| x := VRef 2; result := VNull |}
    [Arr [VNum (Int 1); VNum (Int 2); VNum (Int 3)]; Obj [("b", VRef 0)]; Obj [("a", VRef 1)]]
  = Script.Done {| x := VRef 2; result := VNum (Int 2) |}
      [Arr [VNum (Int 1); VNum (Int 2); VNum (Int 3)]; Obj [("b", VRef 0)]; Obj [("a", VRef 1)]].
Proof. vm_compute. reflexivity. Qed.

Example script_put :
  Script.run "result = x.a = 5" {| x := VRef 0; result := VNull |} [Obj [("a", VNum (Int 1))]]
  = Script.Done {| x := VRef 0; result := VNum (Int 5) |} [Obj [("a", VNum (Int 5))]].
Proof. vm_compute. reflexivity. Qed.

Example script_null_base :
  Script.run "result = x.a" {| x := VNull; result := VNull |} [] = Script.TypeError.
Proof. vm_compute. reflexivity. Qed.

Example session_document :
  document (session (json_text "{'a':{'b':[1,2,3]}}") (Some ".a.b[1]"))
  = Some (TObj [("a", TObj [("b", TArr [TNum (Int 1); TNum (Int 2); TNum (Int 3)])])]).
Proof. vm_compute. reflexivity. Qed.


(** ** The store *)

Lemma alloc_arr ts h :
  alloc (TArr ts) h
  = let '(vs, h1) := alloc_list ts h in (VRef (length h1), h1 ++ [Arr vs]).
Proof. reflexivity. Qed.

Lemma alloc_obj ps h :
  alloc (TObj ps) h
  = let '(pvs, h1) := alloc_props ps h in (VRef (length h1), h1 ++ [Obj pvs]).
Proof. reflexivity. Qed.

Lemma snapshot_at_ext fuel h ext v t :
  snapshot_at fuel h v = Some t -> snapshot_at fuel (h ++ ext) v = Some t.
Proof.
  revert v t. induction fuel as [|fuel IH]; intros v t; destruct v; simpl; try done.
  destruct (h !! l) as [c|] eqn:Hl; [|done].
  rewrite (lookup_app_l_Some _ _ _ _ Hl).
  destruct c as [pvs|vs]; intros H.
  - destruct (mapM _ pvs) as [ps|] eqn:Hm; [|done].
    apply mapM_Some in Hm.
    assert (mapM (fun p => pair p.1 <$> snapshot_at fuel (h ++ ext) p.2) pvs = Some ps) as ->; [|done].
    apply mapM_Some. eapply Forall2_impl; [exact Hm|].
    intros [k v] [k' t'] Hp. simpl in *.
    destruct (snapshot_at fuel h v) eqn:Hs; [|done].
    by rewrite (IH _ _ Hs).
  - destruct (mapM _ vs) as [ts|] eqn:Hm; [|done].
    apply mapM_Some in Hm.
    assert (mapM (snapshot_at fuel (h ++ ext)) vs = Some ts) as ->; [|done].
    apply mapM_Some. eapply Forall2_impl; [exact Hm|]. auto.
Qed.

Lemma snapshot_at_mono fuel fuel' h v t :
  fuel <= fuel' -> snapshot_at fuel h v = Some t -> snapshot_at fuel' h v = Some t.
Proof.
  revert fuel' v t. induction fuel as [|fuel IH]; intros fuel' v t Hle; destruct v; simpl;
    try done; try (by destruct fuel').
  destruct fuel' as [|fuel']; [lia|]. simpl.
  destruct (h !! l) as [c|]; [|done].
  assert (fuel <= fuel') as Hle' by lia.
  destruct c as [pvs|vs]; intros H.
  - destruct (mapM _ pvs) as [ps|] eqn:Hm; [|done].
    apply mapM_Some in Hm.
    assert (mapM (fun p => pair p.1 <$> snapshot_at fuel' h p.2) pvs = Some ps) as ->; [|done].
    apply mapM_Some. eapply Forall2_impl; [exact Hm|].
    intros [k v] [k' t'] Hp. simpl in *.
    destruct (snapshot_at fuel h v) eqn:Hs; [|done].
    by rewrite (IH _ _ _ Hle' Hs).
  - destruct (mapM _ vs) as [ts|] eqn:Hm; [|done].
    apply mapM_Some in Hm.
    assert (mapM (snapshot_at fuel' h) vs = Some ts) as ->; [|done].
    apply mapM_Some. eapply Forall2_impl; [exact Hm|]. eauto.
Qed.

Lemma mapM_cons_Some {A B} (f : A -> option B) a l b k :
  f a = Some b -> mapM f l = Some k -> mapM f (a :: l) = Some (b :: k).
Proof. intros Ha Hl. simpl. rewrite Ha. simpl. rewrite Hl. done. Qed.

(** Allocation only adds cells, at least one per level of the tree, and
    the value it returns reads back as the tree. *)
Lemma alloc_spec t :
  forall h, exists ext,
    (alloc t h).2 = h ++ ext /\ depth t <= length ext
    /\ snapshot_at (depth t) (h ++ ext) (alloc t h).1 = Some t.
Proof.
  induction t as [| | | | |ts IH|ps IH] using tree_ind; intros h;
    try (exists []; rewrite app_nil_r; simpl; by auto).
  - assert (forall h, exists ext d,
        (alloc_list ts h).2 = h ++ ext /\ d <= length ext
        /\ d = fold_right (fun t d => Nat.max (depth t) d) 0 ts
        /\ mapM (snapshot_at d (h ++ ext)) (alloc_list ts h).1 = Some ts) as Hl.
    { clear h. induction IH as [|t ts Ht _ IHts]; intros h.
      - exists [], 0. rewrite app_nil_r. simpl. auto.
      - destruct (Ht h) as (e1 & He1 & Hd1 & Hs1).
        simpl. destruct (alloc t h) as [v h1] eqn:Ha. simpl in He1, Hs1. subst h1.
        destruct (IHts (h ++ e1)) as (e2 & d2 & He2 & Hd2 & Hdeq & Hs2).
        destruct (alloc_list ts (h ++ e1)) as [vs h2]. simpl in He2, Hs2. subst h2.
        exists (e1 ++ e2), (Nat.max (depth t) d2). simpl.
        rewrite length_app, <- Hdeq, app_assoc.
        split; [done|]. split; [lia|]. split; [done|].
        apply mapM_cons_Some.
        + eapply snapshot_at_mono; [|by apply snapshot_at_ext]. lia.
        + apply mapM_Some. apply mapM_Some in Hs2. eapply Forall2_impl; [exact Hs2|].
          intros v1 t1 H1. simpl in H1. eapply snapshot_at_mono; [|exact H1]. lia. }
    destruct (Hl h) as (ext & d & He & Hd & Hdeq & Hs).
    rewrite alloc_arr. destruct (alloc_list ts h) as [vs h1]. simpl in He, Hs. subst h1.
    exists (ext ++ [Arr vs]). rewrite app_assoc. simpl. rewrite <- Hdeq.
    split; [done|]. rewrite length_app. simpl. split; [lia|].
    rewrite lookup_app_r by lia. rewrite Nat.sub_diag. simpl.
    apply mapM_Some in Hs.
    assert (mapM (snapshot_at d ((h ++ ext) ++ [Arr vs])) vs = Some ts) as ->; [|done].
    apply mapM_Some. eapply Forall2_impl; [exact Hs|].
    intros. by apply snapshot_at_ext.
  - assert (forall h, exists ext d,
        (alloc_props ps h).2 = h ++ ext /\ d <= length ext
        /\ d = fold_right (fun p d => Nat.max (depth p.2) d) 0 ps
        /\ mapM (fun p => pair p.1 <$> snapshot_at d (h ++ ext) p.2) (alloc_props ps h).1
           = Some ps) as Hl.
    { clear h. induction IH as [|[k t] ps Ht _ IHps]; intros h.
      - exists [], 0. rewrite app_nil_r. simpl. auto.
      - simpl in Ht. destruct (Ht h) as (e1 & He1 & Hd1 & Hs1).
        simpl. destruct (alloc t h) as [v h1] eqn:Ha. simpl in He1, Hs1. subst h1.
        destruct (IHps (h ++ e1)) as (e2 & d2 & He2 & Hd2 & Hdeq & Hs2).
        destruct (alloc_props ps (h ++ e1)) as [pvs h2]. simpl in He2, Hs2. subst h2.
        exists (e1 ++ e2), (Nat.max (depth t) d2). simpl.
        rewrite length_app, <- Hdeq, app_assoc.
        split; [done|]. split; [lia|]. split; [done|].
        apply (mapM_cons_Some (fun p : string * value =>
                pair p.1 <$> snapshot_at (Nat.max (depth t) d2) ((h ++ e1) ++ e2) p.2)
                 (k, v) pvs (k, t) ps).
        + simpl. erewrite snapshot_at_mono; [done| |by apply snapshot_at_ext]. lia.
        + apply mapM_Some. apply mapM_Some in Hs2. eapply Forall2_impl; [exact Hs2|].
          intros [k1 v1] [k2 t2] Hp. simpl in *.
          destruct (snapshot_at d2 _ v1) eqn:Hs; [|done].
          erewrite snapshot_at_mono; [done| |exact Hs]. lia. }
    destruct (Hl h) as (ext & d & He & Hd & Hdeq & Hs).
    rewrite alloc_obj. destruct (alloc_props ps h) as [pvs h1]. simpl in He, Hs. subst h1.
    exists (ext ++ [Obj pvs]). rewrite app_assoc. simpl. rewrite <- Hdeq.
    split; [done|]. rewrite length_app. simpl. split; [lia|].
    rewrite lookup_app_r by lia. rewrite Nat.sub_diag. simpl.
    apply mapM_Some in Hs.
    assert (mapM (fun p => pair p.1 <$> snapshot_at d ((h ++ ext) ++ [Obj pvs]) p.2) pvs
            = Some ps) as ->; [|done].
    apply mapM_Some. eapply Forall2_impl; [exact Hs|].
    intros [k1 v1] [k2 t2] Hp. simpl in *.
    destruct (snapshot_at d _ v1) eqn:Hs'; [|done].
    by rewrite (snapshot_at_ext _ _ _ _ _ Hs').
Qed.

(** What [alloc] returns denotes the tree it was given. *)
Lemma snapshot_alloc t h :
  snapshot (alloc t h).2 (alloc t h).1 = Some t.
Proof.
  destruct (alloc_spec t h) as (ext & He & Hd & Hs).
  unfold snapshot. rewrite He. eapply snapshot_at_mono; [|exact Hs].
  rewrite length_app. lia.
Qed.

Lemma alloc_extends t h : exists ext, (alloc t h).2 = h ++ ext.
Proof. destruct (alloc_spec t h) as (ext & He & _). eauto. Qed.

(** ** validate *)

Section Validate.

Variable json5_parse : string -> option tree.

Lemma validate_parsed st t :
  json5_parse (editor_value st) = Some t ->
  validate json5_parse st
  = (true, emit InputValid (set_data (alloc t (store st)).1
                              (set_store (alloc t (store st)).2 st))).
Proof.
  intros H. unfold validate. rewrite H. by destruct (alloc t (store st)).
Qed.

Lemma validate_failed st :
  json5_parse (editor_value st) = None ->
  validate json5_parse st = (false, set_data VNull st).
Proof. intros H. unfold validate. by rewrite H. Qed.

Lemma validate_editor_value st :
  editor_value (validate json5_parse st).2 = editor_value st.
Proof.
  unfold validate. destruct (json5_parse _); [|done].
  by destruct (alloc _ _).
Qed.

Lemma validate_setValue_calls st :
  setValue_calls (validate json5_parse st).2 = setValue_calls st.
Proof.
  unfold validate. destruct (json5_parse _); [|done].
  by destruct (alloc _ _).
Qed.

End Validate.

(** C2.  Whatever the editor holds, [validate()] returns: when the text
    parses, the parsed value becomes the document, [input-valid] is
    emitted once and the answer is [true]; when it does not, the document
    is set to [null], nothing is emitted and the answer is [false]. *)
Theorem validate_spec (json5_parse : string -> option tree) (st : Editor) :
  let r := validate json5_parse st in
  match json5_parse (editor_value st) with
  | Some t =>
      r.1 = true /\ document r.2 = Some t
      /\ emitted r.2 = emitted st ++ [InputValid]
  | None =>
      r.1 = false /\ data r.2 = VNull /\ emitted r.2 = emitted st
  end
  /\ pending r.2 = pending st /\ editor_value r.2 = editor_value st
  /\ setValue_calls r.2 = setValue_calls st.
Proof.
  simpl. destruct (json5_parse (editor_value st)) as [t|] eqn:Hp.
  - rewrite (validate_parsed _ _ _ Hp). simpl.
    repeat split; try done. apply snapshot_alloc.
  - rewrite (validate_failed _ _ Hp). simpl. repeat split; done.
Qed.

(** ** runFilter *)

Section RunFilter.

Variable vm_run : string -> sandbox -> heap -> completion sandbox * heap.
Variable jq_run : string -> heap -> value -> jq_outcome.

Lemma filter_is_empty_false f : f <> "" -> filter_is_empty (Some f) = false.
Proof. intros H. by destruct f. Qed.

Lemma runFilter_returns st f sb' h :
  filter_val st = Some f -> f <> "" ->
  vm_run (code_of f) (sandbox_of st) (store st) = (Returns sb', h) ->
  runFilter vm_run jq_run st
  = if truthy (result sb') then emit (FilterValid (result sb') "js") (set_store h st)
    else emit FilterInvalid (set_store h st).
Proof.
  intros Hf Hne Hvm. unfold runFilter. rewrite Hf, (filter_is_empty_false _ Hne).
  cbv zeta. change (default "" (Some f)) with f.
  unfold code_of, sandbox_of in Hvm. by rewrite Hvm.
Qed.

Lemma runFilter_throws st f h :
  filter_val st = Some f -> f <> "" ->
  vm_run (code_of f) (sandbox_of st) (store st) = (Throws, h) ->
  runFilter vm_run jq_run st
  = set_pending (pending st ++ [jq_run f h (data st)]) (set_store h st).
Proof.
  intros Hf Hne Hvm. unfold runFilter. rewrite Hf, (filter_is_empty_false _ Hne).
  cbv zeta. change (default "" (Some f)) with f.
  unfold code_of, sandbox_of in Hvm. by rewrite Hvm.
Qed.

Lemma runFilter_data st : data (runFilter vm_run jq_run st) = data st.
Proof.
  unfold runFilter. destruct (filter_is_empty _); [done|].
  destruct (vm_run _ _ _) as [[sb'|] h]; [|done].
  by destruct (truthy _).
Qed.

End RunFilter.

Lemma terminal_count_app es es' :
  terminal_count (es ++ es') = terminal_count es + terminal_count es'.
Proof. unfold terminal_count. by rewrite List.filter_app, length_app. Qed.

Lemma on_settled_emitted o st :
  exists e, terminal e = true /\ emitted (on_settled o st) = emitted st ++ [e]
            /\ pending (on_settled o st) = pending st
            /\ data (on_settled o st) = data st.
Proof.
  destruct o as [t|]; simpl.
  - destruct (tree_is_null t).
    + by exists FilterInvalid.
    + destruct (alloc t (store st)) as [v h]. by exists (FilterValid v "jq").
  - by exists FilterInvalid.
Qed.

(** A promise that settles emits one outcome and leaves the list of the
    outstanding ones. *)
Lemma settle_outcome i st st' :
  settle i st = Some st' ->
  terminal_count (emitted st') = S (terminal_count (emitted st))
  /\ S (length (pending st')) = length (pending st)
  /\ data st' = data st.
Proof.
  unfold settle. destruct (pending st !! i) as [o|] eqn:Hi; [|done].
  intros [= <-].
  destruct (on_settled_emitted o (set_pending (delete i (pending st)) st))
    as (e & He & Hem & Hp & Hd).
  rewrite Hem, Hp, Hd, terminal_count_app. simpl.
  unfold terminal_count at 2. simpl. rewrite He. simpl.
  split; [lia|]. split; [|done].
  apply lookup_lt_Some in Hi. rewrite length_delete; [lia|]. by apply lookup_lt_is_Some_2.
Qed.

Lemma settles_outcomes st st' :
  settles st st' ->
  terminal_count (emitted st') + length (pending st')
  = terminal_count (emitted st) + length (pending st)
  /\ data st' = data st.
Proof.
  induction 1 as [st|i st st1 st2 Hs _ IH]; [done|].
  destruct (settle_outcome _ _ _ Hs) as (He & Hp & Hd).
  destruct IH as [IH1 IH2]. split; [lia|congruence].
Qed.

(** Settling the promises one after the other comes to an end. *)
Lemma settles_drain st : settles st (drain st) /\ pending (drain st) = [].
Proof.
  unfold drain. remember (length (pending st)) as n eqn:Hn.
  revert st Hn. induction n as [|n IH]; intros st Hn; simpl.
  - split; [constructor|]. by destruct (pending st).
  - destruct (settle 0 st) as [st1|] eqn:Hs.
    + destruct (settle_outcome _ _ _ Hs) as (_ & Hp & _).
      destruct (IH st1) as [H1 H2]; [lia|].
      split; [|done]. by econstructor.
    + unfold settle in Hs. destruct (pending st); simpl in *; done.
Qed.

(** ** runFilter, case by case *)

(** C7.  With no filter text, or the empty one, [runFilter()] emits
    [filter-empty] and that is all it does: the state is otherwise the one
    it found, whatever the two evaluators, and the run is the same run
    whatever the document. *)
Theorem runFilter_empty
    (vm_run : string -> sandbox -> heap -> completion sandbox * heap)
    (jq_run : string -> heap -> value -> jq_outcome) (st : Editor) :
  filter_val st = None \/ filter_val st = Some "" ->
  runFilter vm_run jq_run st = emit FilterEmpty st
  /\ emitted (runFilter vm_run jq_run st) = emitted st ++ [FilterEmpty]
  /\ pending (runFilter vm_run jq_run st) = pending st
  /\ data (runFilter vm_run jq_run st) = data st
  /\ store (runFilter vm_run jq_run st) = store st
  /\ (forall d h,
        runFilter vm_run jq_run (set_data d (set_store h st))
        = set_data d (set_store h (runFilter vm_run jq_run st))).
Proof.
  intros H. assert (runFilter vm_run jq_run st = emit FilterEmpty st) as ->.
  { unfold runFilter. by destruct H as [-> | ->]. }
  repeat split. intros d h. unfold runFilter. simpl. by destruct H as [-> | ->].
Qed.

Lemma runFilter_empty_witness :
  (filter_val (session "[1" (Some "")) = None
   \/ filter_val (session "[1" (Some "")) = Some "")
  /\ data (session "[1" (Some "")) = VNull
  /\ emitted (run_session "[1" (Some "")) = [FilterEmpty]
  /\ pending (run_session "[1" (Some "")) = [].
Proof.
  split; [right; reflexivity|].
  split; [reflexivity|].
  destruct (runFilter_empty Script.vm_run jq_rejects (session "[1" (Some "")))
    as (_ & He & Hp & _); [right; reflexivity|].
  split; [exact He | exact Hp].
Defined.

(** C4.  When the script completes and leaves a truthy [result],
    [runFilter()] emits [filter-valid] with that result and the type [js]
    (the tag of the expression evaluator), and no promise is left behind.
    On the document [{"a":{"b":[1,2,3]}}] the filter [.a.b[1]] gives the
    result 2. *)
Theorem runFilter_truthy :
  (forall (vm_run : string -> sandbox -> heap -> completion sandbox * heap)
          (jq_run : string -> heap -> value -> jq_outcome)
          (st : Editor) (f : string) (sb' : sandbox) (h : heap),
      filter_val st = Some f -> f <> "" ->
      vm_run (code_of f) (sandbox_of st) (store st) = (Returns sb', h) ->
      truthy (result sb') = true ->
      emitted (runFilter vm_run jq_run st)
      = emitted st ++ [FilterValid (result sb') "js"]
      /\ pending (runFilter vm_run jq_run st) = pending st)
  /\ (let st := session (json_text "{'a':{'b':[1,2,3]}}") (Some ".a.b[1]") in
      document st
      = Some (TObj [("a", TObj [("b", TArr [TNum (Int 1); TNum (Int 2); TNum (Int 3)])])])
      /\ emitted (runFilter Script.vm_run jq_rejects st)
         = emitted st ++ [FilterValid (VNum (Int 2)) "js"]).
Proof.
  split.
  - intros vm_run jq_run st f sb' h Hf Hne Hvm Ht.
    rewrite (runFilter_returns _ _ _ _ _ _ Hf Hne Hvm), Ht. done.
  - split; vm_compute; reflexivity.
Qed.

Lemma runFilter_truthy_witness :
  let st := session "[7]" (Some "[0]") in
  filter_val st = Some "[0]"
  /\ Script.vm_run (code_of "[0]") (sandbox_of st) (store st)
     = (Returns {| x := data st; result := VNum (Int 7) |}, store st)
  /\ emitted (runFilter Script.vm_run jq_rejects st)
     = emitted st ++ [FilterValid (VNum (Int 7)) "js"]
  /\ pending (runFilter Script.vm_run jq_rejects st) = pending st.
Proof.
  intros st.
  assert (filter_val st = Some "[0]") as Hf by reflexivity.
  assert (Script.vm_run (code_of "[0]") (sandbox_of st) (store st)
          = (Returns {| x := data st; result := VNum (Int 7) |}, store st)) as Hvm
    by (vm_compute; reflexivity).
  split; [exact Hf|]. split; [exact Hvm|].
  exact (proj1 runFilter_truthy Script.vm_run jq_rejects st "[0]"
           {| x := data st; result := VNum (Int 7) |} (store st)
           Hf ltac:(discriminate) Hvm eq_refl).
Defined.

(** C5.  When the script completes and leaves a falsy [result] ([null],
    [undefined], [0], [NaN], the empty string, [false]), [runFilter()]
    emits [filter-invalid]; no promise is left behind and the query
    evaluator has no say in the outcome. *)
Theorem runFilter_falsy
    (vm_run : string -> sandbox -> heap -> completion sandbox * heap)
    (jq_run : string -> heap -> value -> jq_outcome)
    (st : Editor) (f : string) (sb' : sandbox) (h : heap) :
  filter_val st = Some f -> f <> "" ->
  vm_run (code_of f) (sandbox_of st) (store st) = (Returns sb', h) ->
  truthy (result sb') = false ->
  emitted (runFilter vm_run jq_run st) = emitted st ++ [FilterInvalid]
  /\ pending (runFilter vm_run jq_run st) = pending st
  /\ forall jq_run', runFilter vm_run jq_run' st = runFilter vm_run jq_run st.
Proof.
  intros Hf Hne Hvm Ht.
  rewrite (runFilter_returns _ _ _ _ _ _ Hf Hne Hvm), Ht.
  split; [done|]. split; [done|]. intros jq'.
  by rewrite (runFilter_returns _ jq' _ _ _ _ Hf Hne Hvm), Ht.
Qed.

(** The instance of the specification: document [{"a":1}], filter [.b]. *)
Lemma runFilter_falsy_witness :
  let st := session (json_text "{'a':1}") (Some ".b") in
  document st = Some (TObj [("a", TNum (Int 1))])
  /\ Script.vm_run (code_of ".b") (sandbox_of st) (store st)
     = (Returns {| x := data st; result := VUndefined |}, store st)
  /\ emitted (runFilter Script.vm_run jq_rejects st) = emitted st ++ [FilterInvalid]
  /\ pending (runFilter Script.vm_run jq_rejects st) = pending st.
Proof.
  intros st.
  assert (Script.vm_run (code_of ".b") (sandbox_of st) (store st)
          = (Returns {| x := data st; result := VUndefined |}, store st)) as Hvm
    by (vm_compute; reflexivity).
  split; [vm_compute; reflexivity|]. split; [exact Hvm|].
  destruct (runFilter_falsy Script.vm_run jq_rejects st ".b" _ _
              eq_refl ltac:(discriminate) Hvm eq_refl) as (He & Hp & _).
  split; [exact He | exact Hp].
Defined.

(** A result that is defined and falsy: the number 0, the empty string. *)
Example runFilter_zero :
  emitted (run_session "[0, '']" (Some "[0]")) = [InputValid; FilterInvalid]
  /\ emitted (run_session "[0, '']" (Some "[1]")) = [InputValid; FilterInvalid]
  /\ pending (run_session "[0, '']" (Some "[0]")) = [].
Proof. vm_compute. repeat split. Qed.

Lemma falsy_values :
  truthy VNull = false /\ truthy VUndefined = false /\ truthy (VNum (Int 0)) = false
  /\ truthy (VNum NaN) = false /\ truthy (VStr "") = false /\ truthy (VBool false) = false.
Proof. repeat split. Qed.

(** C3.  When the script throws, [runFilter()] emits nothing itself and
    hands the filter text and the document to the query evaluator; when
    that promise settles, a [null] result and a rejection give
    [filter-invalid], any other result gives [filter-valid] with that
    result and the type [jq] (the tag of the query evaluator). *)
Theorem runFilter_fallback
    (vm_run : string -> sandbox -> heap -> completion sandbox * heap)
    (jq_run : string -> heap -> value -> jq_outcome)
    (st : Editor) (f : string) (h : heap) :
  filter_val st = Some f -> f <> "" ->
  vm_run (code_of f) (sandbox_of st) (store st) = (Throws, h) ->
  let st1 := runFilter vm_run jq_run st in
  let o := jq_run f h (data st) in
  emitted st1 = emitted st
  /\ pending st1 = pending st ++ [o]
  /\ exists st2,
       settle (length (pending st)) st1 = Some st2
       /\ pending st2 = pending st
       /\ match o with
          | Resolved t =>
              if tree_is_null t then emitted st2 = emitted st ++ [FilterInvalid]
              else exists v, emitted st2 = emitted st ++ [FilterValid v "jq"]
                             /\ snapshot (store st2) v = Some t
          | Rejected => emitted st2 = emitted st ++ [FilterInvalid]
          end.
Proof.
  intros Hf Hne Hvm. simpl.
  rewrite (runFilter_throws _ _ _ _ _ Hf Hne Hvm). simpl.
  split; [done|]. split; [done|].
  unfold settle. simpl.
  rewrite lookup_app_r by lia. rewrite Nat.sub_diag. simpl.
  eexists. split; [done|].
  assert (delete (length (pending st)) (pending st ++ [jq_run f h (data st)]) = pending st)
    as Hdel.
  { rewrite delete_middle. apply app_nil_r. }
  rewrite Hdel.
  destruct (jq_run f h (data st)) as [t|]; simpl.
  - destruct (tree_is_null t); simpl; [done|].
    pose proof (snapshot_alloc t h) as Hs.
    destruct (alloc t h) as [v h']. simpl. split; [done|]. by exists v.
  - done.
Qed.

Lemma runFilter_fallback_witness :
  let st := session (json_text "{'a':1}") (Some ".b.c") in
  Script.vm_run (code_of ".b.c") (sandbox_of st) (store st) = (Throws, store st)
  /\ emitted (runFilter Script.vm_run jq_rejects st) = emitted st
  /\ pending (runFilter Script.vm_run jq_rejects st) = [Rejected]
  /\ emitted (drain (runFilter Script.vm_run jq_rejects st)) = emitted st ++ [FilterInvalid].
Proof.
  intros st.
  assert (Script.vm_run (code_of ".b.c") (sandbox_of st) (store st) = (Throws, store st))
    as Hvm by (vm_compute; reflexivity).
  split; [exact Hvm|].
  destruct (runFilter_fallback Script.vm_run jq_rejects st ".b.c" (store st)
              eq_refl ltac:(discriminate) Hvm) as (He & Hp & _).
  split; [exact He|]. split; [exact Hp|]. vm_compute. reflexivity.
Defined.

(** The two ways a resolved promise goes, on the run of the witness. *)
Example runFilter_fallback_resolved :
  let st := session (json_text "{'a':1}") (Some ".b.c") in
  emitted (drain (runFilter Script.vm_run (jq_settles (Resolved TNull)) st))
  = emitted st ++ [FilterInvalid]
  /\ emitted (drain (runFilter Script.vm_run (jq_settles (Resolved (TNum (Int 1)))) st))
     = emitted st ++ [FilterValid (VNum (Int 1)) "jq"].
Proof. vm_compute. split; reflexivity. Qed.

(** C1.  A run of [runFilter()] on a filter text that is not empty ends
    in one outcome event: either the run emits it before it returns and
    leaves no promise, or it emits nothing and leaves one promise, whose
    settling emits it.  So once the promises have settled, in whatever
    order, the outcome events are one more than the runs before this one
    account for; and the promises do settle. *)
Theorem runFilter_one_outcome
    (vm_run : string -> sandbox -> heap -> completion sandbox * heap)
    (jq_run : string -> heap -> value -> jq_outcome)
    (st : Editor) (f : string) :
  filter_val st = Some f -> f <> "" ->
  let st1 := runFilter vm_run jq_run st in
  ((exists e, terminal e = true /\ emitted st1 = emitted st ++ [e]
              /\ pending st1 = pending st)
   \/ (exists o, emitted st1 = emitted st /\ pending st1 = pending st ++ [o]))
  /\ (forall i st2, settle i st1 = Some st2 ->
        terminal_count (emitted st2) = S (terminal_count (emitted st1))
        /\ S (length (pending st2)) = length (pending st1))
  /\ (exists st2, settles st1 st2 /\ pending st2 = [])
  /\ (forall st2, settles st1 st2 -> pending st2 = [] ->
        terminal_count (emitted st2)
        = terminal_count (emitted st) + length (pending st) + 1).
Proof.
  intros Hf Hne st1.
  assert ((exists e, terminal e = true /\ emitted st1 = emitted st ++ [e]
                     /\ pending st1 = pending st)
          \/ (exists o, emitted st1 = emitted st /\ pending st1 = pending st ++ [o]))
    as Hrun.
  { subst st1.
    destruct (vm_run (code_of f) (sandbox_of st) (store st)) as [[sb'|] h] eqn:Hvm.
    - left. rewrite (runFilter_returns _ _ _ _ _ _ Hf Hne Hvm).
      destruct (truthy (result sb')).
      + by exists (FilterValid (result sb') "js").
      + by exists FilterInvalid.
    - right. rewrite (runFilter_throws _ _ _ _ _ Hf Hne Hvm). by eexists. }
  split; [exact Hrun|].
  split.
  { intros i st2 Hs. destruct (settle_outcome _ _ _ Hs) as (He & Hp & _). done. }
  split.
  { exists (drain st1). apply settles_drain. }
  intros st2 Hs Hq. destruct (settles_outcomes _ _ Hs) as [Hsum _].
  rewrite Hq in Hsum. simpl in Hsum.
  destruct Hrun as [(e & He & Hem & Hp) | (o & Hem & Hp)].
  - rewrite Hem, Hp, terminal_count_app in Hsum.
    unfold terminal_count at 3 in Hsum. simpl in Hsum. rewrite He in Hsum. simpl in Hsum. lia.
  - rewrite Hem, Hp, length_app in Hsum. simpl in Hsum. lia.
Qed.

Lemma runFilter_one_outcome_witness :
  let st := session (json_text "{'a':1}") (Some ".b.c") in
  let st1 := runFilter Script.vm_run jq_rejects st in
  filter_val st = Some ".b.c"
  /\ pending st = []
  /\ pending (drain st1) = []
  /\ terminal_count (emitted (drain st1)) = terminal_count (emitted st) + 0 + 1.
Proof.
  intros st st1.
  destruct (runFilter_one_outcome Script.vm_run jq_rejects st ".b.c"
              eq_refl ltac:(discriminate)) as (_ & _ & _ & Hall).
  split; [reflexivity|]. split; [reflexivity|].
  split; [apply settles_drain|].
  apply (Hall (drain st1)); apply settles_drain.
Defined.

(** ** formatInput *)

Lemma formatInput_null json5_parse st :
  data st = VNull -> formatInput json5_parse st = Returns st.
Proof. intros H. unfold formatInput. by rewrite H. Qed.

Lemma setValue_editor_value json5_parse s st :
  editor_value (setValue json5_parse (Some s) st) = s
  /\ setValue_calls (setValue json5_parse (Some s) st) = setValue_calls st ++ [Some s].
Proof.
  unfold setValue. simpl. destruct (listening st); [|done].
  by rewrite validate_editor_value, validate_setValue_calls.
Qed.

Lemma document_not_null st t : document st = Some t -> t <> TNull -> is_null (data st) = false.
Proof.
  unfold document, snapshot. destruct (data st); simpl; try done.
  intros [= <-]. done.
Qed.

(** C6, as the code has it.  [formatInput()] tests the [data] field
    against [null].  When the field is [null] -- after a parse that
    failed, or after one that read the text [null] -- it does nothing.
    When the field holds a parsed value other than [null], the editor is
    given [JSON.stringify(data, null, 2)] as its whole content. *)
Theorem formatInput_spec (json5_parse : string -> option tree) (st : Editor) :
  (data st = VNull -> formatInput json5_parse st = Returns st)
  /\ (forall t s,
        document st = Some t -> t <> TNull -> SerializeJSONProperty [] t = Some s ->
        JSON_stringify (store st) (data st) = Returns (Some (string_of_list_ascii s))
        /\ exists st',
             formatInput json5_parse st = Returns st'
             /\ editor_value st' = string_of_list_ascii s
             /\ setValue_calls st'
                = setValue_calls st ++ [Some (string_of_list_ascii s)]).
Proof.
  split; [apply formatInput_null|].
  intros t s Hdoc Hnn Hser.
  assert (JSON_stringify (store st) (data st) = Returns (Some (string_of_list_ascii s)))
    as Hjs.
  { unfold JSON_stringify. unfold document in Hdoc. by rewrite Hdoc, Hser. }
  split; [exact Hjs|].
  unfold formatInput. rewrite (document_not_null _ _ Hdoc Hnn), Hjs. simpl.
  eexists. split; [done|]. apply setValue_editor_value.
Qed.

Lemma formatInput_spec_witness :
  let st := session "[1, {a: null}]" None in
  document st = Some (TArr [TNum (Int 1); TObj [("a", TNull)]])
  /\ exists st',
       formatInput JSON5.parse st = Returns st'
       /\ editor_value st'
          = string_of_list_ascii
              (chars "[" ++ newline :: chars "  1," ++ newline :: chars "  {" ++ newline
               :: chars "    " ++ dquote :: chars "a" ++ dquote :: chars ": null" ++ newline
               :: chars "  }" ++ newline :: chars "]").
Proof.
  intros st.
  assert (document st = Some (TArr [TNum (Int 1); TObj [("a", TNull)]])) as Hdoc
    by (vm_compute; reflexivity).
  split; [exact Hdoc|].
  destruct (proj2 (formatInput_spec JSON5.parse st) _ _ Hdoc ltac:(discriminate) eq_refl)
    as (_ & st' & Hf & Hv & _).
  exists st'. split; [exact Hf | exact Hv].
Defined.

(** C6, as it is stated, fails on the text [null]: the parse
    succeeds, [input-valid] is emitted, and [formatInput()] leaves the
    editor as it is although the document serializes to another text. *)
Lemma formatInput_after_parsed_null :
  let st0 := set_editor_value " null " fresh in
  let st := (validate JSON5.parse st0).2 in
  JSON5.parse (editor_value st0) = Some TNull
  /\ (validate JSON5.parse st0).1 = true
  /\ emitted st = [InputValid]
  /\ JSON_stringify (store st) (data st) = Returns (Some "null")
  /\ formatInput JSON5.parse st = Returns st
  /\ editor_value st = " null ".
Proof. vm_compute. repeat split. Qed.

(** C10.  The constructor does not assign [this.data]: the field is
    [undefined], which is not [null], so [formatInput()] on a fresh editor
    passes the test and calls [setValue] with what [JSON.stringify] makes
    of [undefined], that is with [undefined]. *)
Theorem formatInput_initial (welcomeMessage : string)
    (json5_parse : string -> option tree) (el : string) (filter : option string) :
  let st := constructor welcomeMessage json5_parse el filter in
  data st = VUndefined
  /\ is_null (data st) = false
  /\ JSON_stringify (store st) (data st) = Returns None
  /\ formatInput json5_parse st = Returns (log_setValue None st)
  /\ setValue_calls (log_setValue None st) = setValue_calls st ++ [None].
Proof. simpl. repeat split. Qed.

(** ** The document under runFilter *)

(** C9, as the code has it.  [runFilter()] does not assign [this.data]:
    the field holds the same value after the run and after its promise has
    settled.  The store changes as the script changes it and in no other
    way, so a script that leaves the store alone leaves the document
    alone. *)
Theorem runFilter_keeps_data
    (vm_run : string -> sandbox -> heap -> completion sandbox * heap)
    (jq_run : string -> heap -> value -> jq_outcome) (st : Editor) :
  data (runFilter vm_run jq_run st) = data st
  /\ (forall st', settles (runFilter vm_run jq_run st) st' -> data st' = data st)
  /\ store (runFilter vm_run jq_run st)
     = (if filter_is_empty (filter_val st) then store st
        else (vm_run (code_of (default "" (filter_val st))) (sandbox_of st) (store st)).2)
  /\ ((vm_run (code_of (default "" (filter_val st))) (sandbox_of st) (store st)).2
      = store st ->
      document (runFilter vm_run jq_run st) = document st).
Proof.
  assert (store (runFilter vm_run jq_run st)
          = (if filter_is_empty (filter_val st) then store st
             else (vm_run (code_of (default "" (filter_val st))) (sandbox_of st) (store st)).2))
    as Hstore.
  { unfold runFilter, code_of, sandbox_of. destruct (filter_is_empty _); [done|].
    cbv zeta. destruct (vm_run _ _ _) as [[sb'|] h]; [|done]. by destruct (truthy _). }
  split; [apply runFilter_data|].
  split.
  { intros st' Hs. destruct (settles_outcomes _ _ Hs) as [_ ->]. apply runFilter_data. }
  split; [exact Hstore|].
  intros Hsame. unfold document. rewrite runFilter_data, Hstore.
  destruct (filter_is_empty _); [done|]. by rewrite Hsame.
Qed.

(** C9, as it is stated, fails on the filter [.a = 5]: the script
    [result = x.a = 5] writes through [x] into the object that [this.data]
    names. *)
Lemma runFilter_writes_document :
  let st := session (json_text "{'a':1}") (Some ".a = 5") in
  let st1 := runFilter Script.vm_run jq_rejects st in
  document st = Some (TObj [("a", TNum (Int 1))])
  /\ data st1 = data st
  /\ document st1 = Some (TObj [("a", TNum (Int 5))])
  /\ document st1 <> document st
  /\ emitted st1 = emitted st ++ [FilterValid (VNum (Int 5)) "js"].
Proof. vm_compute. repeat split. discriminate. Qed.

(** ** Reading back what JSON.stringify writes *)

Section Numbers.

Import JSON5.

Lemma scan_digits_stop acc rest :
  no_digit_ahead rest -> scan_digits acc rest = (acc, rest).
Proof. destruct rest as [|c r]; simpl; [done|]. by intros ->. Qed.

Lemma scan_digits_uint d acc rest :
  no_digit_ahead rest ->
  scan_digits acc (chars (NilEmpty.string_of_uint d) ++ rest) = (uint_val d acc, rest).
Proof.
  intros Hrest. revert acc.
  induction d; intros acc; simpl;
    first [ by apply scan_digits_stop | rewrite <- IHd; f_equal; lia ].
Qed.

Lemma uint_val_pos d p : uint_val d (Npos p) = Npos (Pos.of_uint_acc d p).
Proof.
  revert p. induction d; intros p; simpl; try done;
    match goal with |- uint_val _ ?a = _ =>
      match goal with |- _ = Npos (Pos.of_uint_acc _ ?q) =>
        replace a with (Npos q) by lia end end; apply IHd.
Qed.

Lemma uint_val_0 d : uint_val d 0 = Pos.of_uint d.
Proof.
  induction d; simpl; try done;
    first [ exact IHd
          | match goal with |- _ = N.pos (Pos.of_uint_acc _ ?q) => exact (uint_val_pos d q) end ].
Qed.

Lemma to_uint_head p :
  exists c s, NilEmpty.string_of_uint (Pos.to_uint p) = String c s
              /\ is_digit c = true /\ Ascii.eqb c "0" = false.
Proof.
  assert (Decimal.unorm (Pos.to_uint p) = Pos.to_uint p) as Hnorm.
  { rewrite <- (DecimalPos.Unsigned.to_of (Pos.to_uint p)).
    by rewrite DecimalPos.Unsigned.of_to. }
  pose proof (DecimalPos.Unsigned.to_uint_nonzero p) as Hnz.
  destruct (Pos.to_uint p) as [|d|d|d|d|d|d|d|d|d|d] eqn:Hd;
    try (eexists _, _; split; [reflexivity|]; split; reflexivity).
  - by destruct (DecimalPos.Unsigned.to_uint_nonnil p).
  - exfalso. destruct (Decimal.nzhead (Decimal.D0 d)) eqn:Hh.
    + apply DecimalFacts.unorm_0 in Hh. rewrite Hnorm in Hh. by apply Hnz.
    + rewrite DecimalFacts.unorm_nzhead in Hnorm by (rewrite Hh; discriminate).
      by apply DecimalFacts.nzhead_nonzero in Hnorm.
    + rewrite DecimalFacts.unorm_nzhead in Hnorm by (rewrite Hh; discriminate).
      by apply DecimalFacts.nzhead_nonzero in Hnorm.
    + rewrite DecimalFacts.unorm_nzhead in Hnorm by (rewrite Hh; discriminate).
      by apply DecimalFacts.nzhead_nonzero in Hnorm.
    + rewrite DecimalFacts.unorm_nzhead in Hnorm by (rewrite Hh; discriminate).
      by apply DecimalFacts.nzhead_nonzero in Hnorm.
    + rewrite DecimalFacts.unorm_nzhead in Hnorm by (rewrite Hh; discriminate).
      by apply DecimalFacts.nzhead_nonzero in Hnorm.
    + rewrite DecimalFacts.unorm_nzhead in Hnorm by (rewrite Hh; discriminate).
      by apply DecimalFacts.nzhead_nonzero in Hnorm.
    + rewrite DecimalFacts.unorm_nzhead in Hnorm by (rewrite Hh; discriminate).
      by apply DecimalFacts.nzhead_nonzero in Hnorm.
    + rewrite DecimalFacts.unorm_nzhead in Hnorm by (rewrite Hh; discriminate).
      by apply DecimalFacts.nzhead_nonzero in Hnorm.
    + rewrite DecimalFacts.unorm_nzhead in Hnorm by (rewrite Hh; discriminate).
      by apply DecimalFacts.nzhead_nonzero in Hnorm.
    + rewrite DecimalFacts.unorm_nzhead in Hnorm by (rewrite Hh; discriminate).
      by apply DecimalFacts.nzhead_nonzero in Hnorm.
Qed.

(** The digits that [JSON.stringify] writes for a natural number are read
    back as that number. *)
Lemma parse_magnitude_digits n rest :
  no_digit_ahead rest ->
  parse_magnitude (digits n ++ rest) = Some (n, rest)
  /\ exists c s, digits n = c :: s /\ is_digit c = true.
Proof.
  intros Hrest. destruct n as [|p].
  - split; [done|]. by exists "0"%char, [].
  - unfold digits. simpl N.to_uint.
    destruct (to_uint_head p) as (c & s & Hs & Hc & H0).
    assert (NilZero.string_of_uint (Pos.to_uint p)
            = NilEmpty.string_of_uint (Pos.to_uint p)) as Heq.
    { pose proof (DecimalPos.Unsigned.to_uint_nonnil p) as Hnn.
      unfold NilZero.string_of_uint. by destruct (Pos.to_uint p). }
    rewrite Heq. split.
    + pose proof (scan_digits_uint (Pos.to_uint p) 0 rest Hrest) as Hscan.
      rewrite uint_val_0, (DecimalPos.Unsigned.of_to p) in Hscan.
      rewrite Hs in *.
      change (chars (String c s) ++ rest) with (c :: (chars s ++ rest)) in *.
      unfold parse_magnitude. by rewrite H0, Hc, Hscan.
    + rewrite Hs. by exists c, (chars s).
Qed.

End Numbers.

Section Strings.

Import JSON5.

(** One character as [JSON.stringify] escapes it is read back as that
    character by the string reader of either quote. *)
Lemma escape_char_read c r :
  (N_of_ascii c <? 128)%N = true ->
  parse_string_body dquote (escape_char c ++ r)
  = match parse_string_body dquote r with
    | Some (cs, r') => Some (c :: cs, r')
    | None => None
    end.
Proof.
  destruct c as [[] [] [] [] [] [] [] []]; intros H;
    first [ discriminate H | reflexivity ].
Qed.

Lemma quoted_read cs rest :
  forallb (fun c => (N_of_ascii c <? 128)%N) cs = true ->
  parse_string_body dquote (flat_map escape_char cs ++ dquote :: rest) = Some (cs, rest).
Proof.
  induction cs as [|c cs IH]; intros H.
  - reflexivity.
  - simpl in H. apply andb_true_iff in H as [Hc Hcs].
    simpl flat_map. rewrite <- app_assoc, (escape_char_read _ _ Hc), (IH Hcs). done.
Qed.

(** A quoted string, as a value and as a key. *)
Lemma QuoteJSONString_read s rest :
  ascii_only s = true ->
  exists body,
    QuoteJSONString s ++ rest = dquote :: body
    /\ parse_string_body dquote body = Some (chars s, rest).
Proof.
  intros H. exists (flat_map escape_char (chars s) ++ dquote :: rest). split.
  - unfold QuoteJSONString. simpl. by rewrite <- app_assoc.
  - by apply quoted_read.
Qed.

End Strings.

Section Layout.

Import JSON5.

Lemma skip_ws_app ws s : forallb is_ws ws = true -> skip_ws (ws ++ s) = skip_ws s.
Proof.
  induction ws as [|c ws IH]; intros H; [done|].
  simpl in H. apply andb_true_iff in H as [Hc Hws]. simpl. by rewrite Hc, IH.
Qed.

Lemma skip_ws_head c s : is_ws c = false -> skip_ws (c :: s) = c :: s.
Proof. intros H. simpl. by rewrite H. Qed.

Lemma is_ws_gap indent :
  forallb is_ws indent = true -> forallb is_ws (indent ++ gap) = true.
Proof. intros H. by rewrite forallb_app, H. Qed.

Lemma layout_cons open close indent p ps :
  layout open close indent (p :: ps)
  = open :: newline :: (indent ++ gap) ++ p ++ layout_tail close indent ps.
Proof.
  unfold layout. do 3 f_equal.
  revert p. induction ps as [|q ps IH]; intros p.
  - done.
  - change (join ?sep (p :: q :: ps)) with (p ++ sep ++ join sep (q :: ps)).
    rewrite <- !app_assoc. f_equal. simpl. do 3 f_equal. apply IH.
Qed.

Lemma serialize_arr indent ts :
  SerializeJSONProperty indent (TArr ts)
  = Some (layout "[" "]" indent
            (map (fun t => default (chars "null") (SerializeJSONProperty (indent ++ gap) t)) ts)).
Proof.
  reflexivity.
Qed.

Lemma serialize_obj indent ps :
  SerializeJSONProperty indent (TObj ps)
  = Some (layout "{" "}" indent
            (omap (fun p => (fun str => QuoteJSONString (fst p) ++ ":"%char :: " "%char :: str)
                              <$> SerializeJSONProperty (indent ++ gap) (snd p)) ps)).
Proof.
  simpl. do 2 f_equal. induction ps as [|p ps IH]; simpl; [done|].
  rewrite IH. by destruct (SerializeJSONProperty _ _).
Qed.

End Layout.

Section Roundtrip.

Import JSON5.

Lemma digit_facts c :
  is_digit c = true ->
  is_ws c = false /\ Ascii.eqb c "[" = false /\ Ascii.eqb c "{" = false
  /\ is_quote c = false /\ Ascii.eqb c "n" = false /\ Ascii.eqb c "t" = false
  /\ Ascii.eqb c "f" = false /\ Ascii.eqb c "-" = false /\ Ascii.eqb c "+" = false
  /\ Ascii.eqb "I" c = false /\ Ascii.eqb "N" c = false
  /\ Ascii.eqb c "]" = false /\ Ascii.eqb c "}" = false.
Proof.
  destruct c as [[] [] [] [] [] [] [] []]; intros H;
    first [ discriminate H | repeat split ].
Qed.

Lemma parse_unsigned_digits negative n rest :
  no_digit_ahead rest ->
  parse_unsigned negative (digits n ++ rest)
  = Some (TNum (Int (if negative then - Z.of_N n else Z.of_N n)), rest).
Proof.
  intros Hrest.
  destruct (parse_magnitude_digits n rest Hrest) as (Hm & c & s & Hd & Hc).
  unfold parse_unsigned. rewrite Hm. rewrite Hd in *.
  destruct (digit_facts c Hc) as (_ & _ & _ & _ & _ & _ & _ & _ & _ & HI & HN & _).
  cbn [strip chars list_ascii_of_string app]. by rewrite HI, HN.
Qed.

Lemma parse_value_ws fuel ws s :
  forallb is_ws ws = true -> parse_value fuel (ws ++ s) = parse_value fuel s.
Proof. intros H. destruct fuel; [done|]. simpl. by rewrite skip_ws_app. Qed.

(** An integer, as written, is read back. *)
Lemma number_reads fuel indent z :
  1 <= fuel -> reads (parse_value fuel) indent (TNum (Int z)).
Proof.
  intros Hfuel. destruct fuel as [|fuel]; [lia|].
  exists (int_to_chars z). split; [done|].
  destruct z as [|p|p].
  - split; [by exists "0"%char, []|]. intros rest Hrest.
    pose proof (parse_unsigned_digits false 0 rest Hrest) as H. exact H.
  - destruct (parse_magnitude_digits (Npos p) [] I) as (_ & c & s & Hd & Hc).
    destruct (digit_facts c Hc)
      as (Hws & Hb1 & Hb2 & Hq & Hn & Ht & Hf & Hm & Hp & _ & _ & Hc1 & Hc2).
    simpl int_to_chars. split; [by exists c, s|]. intros rest Hrest.
    pose proof (parse_unsigned_digits false (Npos p) rest Hrest) as H.
    rewrite Hd in *. simpl app in *. simpl parse_value.
    rewrite Hws, Hb1, Hb2, Hq. unfold parse_scalar.
    by rewrite Hn, Ht, Hf, Hm, Hp.
  - simpl int_to_chars. split; [by eexists _, _|]. intros rest Hrest.
    pose proof (parse_unsigned_digits true (Npos p) rest Hrest) as H.
    simpl. exact H.
Qed.

Lemma string_reads fuel indent s :
  1 <= fuel -> ascii_only s = true -> reads (parse_value fuel) indent (TStr s).
Proof.
  intros Hfuel Hs. destruct fuel as [|fuel]; [lia|].
  exists (QuoteJSONString s). split; [done|].
  split; [by eexists _, _|]. intros rest _.
  destruct (QuoteJSONString_read s rest Hs) as (body & -> & Hbody).
  simpl. rewrite Hbody. unfold chars. by rewrite string_of_list_ascii_of_string.
Qed.

(** One turn of the loop over the elements of an array. *)
Lemma parse_elements_item pv n acc ws c s' t X :
  forallb is_ws ws = true -> is_ws c = false -> Ascii.eqb c "]" = false ->
  pv (c :: s' ++ X) = Some (t, X) ->
  parse_elements pv (S n) acc (ws ++ c :: s' ++ X)
  = match skip_ws X with
    | [] => None
    | d :: r =>
        if Ascii.eqb d "," then parse_elements pv n (t :: acc) r
        else if Ascii.eqb d "]" then Some (TArr (rev (t :: acc)), r)
        else None
    end.
Proof.
  intros Hws Hc Hb Hpv. simpl parse_elements.
  by rewrite (skip_ws_app _ _ Hws), (skip_ws_head _ _ Hc), Hb, Hpv.
Qed.

Lemma elements_read pv indent rest ts ss :
  forallb is_ws indent = true ->
  Forall2 (reads_as pv) ts ss ->
  forall t s acc n,
    reads_as pv t s -> length ts < n ->
    parse_elements pv n acc
      (newline :: (indent ++ gap) ++ s ++ layout_tail "]" indent ss ++ rest)
    = Some (TArr (rev acc ++ t :: ts), rest).
Proof.
  intros Hind Hall. induction Hall as [|t2 s2 ts ss H2 Hall IH];
    intros t s acc n ((c & s' & -> & Hws & Hb & _) & Hread) Hn;
    (destruct n as [|n]; [simpl in Hn; lia|]).
  - simpl layout_tail.
    change (newline :: (indent ++ gap) ++ (c :: s') ++ (newline :: indent ++ ["]"%char]) ++ rest)
      with ((newline :: indent ++ gap) ++ c :: s' ++ (newline :: indent ++ ["]"%char]) ++ rest).
    rewrite (parse_elements_item pv n acc _ c s' t _); try done.
    + change ((newline :: indent ++ ["]"%char]) ++ rest)
        with (newline :: (indent ++ ["]"%char]) ++ rest).
      rewrite <- app_assoc.
      change (newline :: indent ++ ["]"%char] ++ rest)
        with ((newline :: indent) ++ "]"%char :: rest).
      rewrite skip_ws_app by (simpl; exact Hind).
      simpl. done.
    + simpl. by apply is_ws_gap.
    + apply (Hread ((newline :: indent ++ ["]"%char]) ++ rest)). done.
  - simpl layout_tail.
    set (tail := layout_tail "]" indent ss).
    change (newline :: (indent ++ gap) ++ (c :: s')
              ++ (","%char :: newline :: (indent ++ gap) ++ s2 ++ tail) ++ rest)
      with ((newline :: indent ++ gap) ++ c :: s'
              ++ (","%char :: newline :: (indent ++ gap) ++ s2 ++ tail) ++ rest).
    rewrite (parse_elements_item pv n acc _ c s' t _); try done.
    + change ((","%char :: newline :: (indent ++ gap) ++ s2 ++ tail) ++ rest)
        with (","%char :: (newline :: (indent ++ gap) ++ s2 ++ tail) ++ rest).
      rewrite (skip_ws_head ","%char) by done.
      change (Ascii.eqb "," ",") with true. cbv iota.
      change ((newline :: (indent ++ gap) ++ s2 ++ tail) ++ rest)
        with (newline :: ((indent ++ gap) ++ s2 ++ tail) ++ rest).
      rewrite <- !app_assoc.
      rewrite (app_assoc indent gap). subst tail.
      rewrite (IH t2 s2 (t :: acc) n H2 ltac:(simpl in Hn; lia)).
      simpl. by rewrite <- app_assoc.
    + simpl. by apply is_ws_gap.
    + apply (Hread ((","%char :: newline :: (indent ++ gap) ++ s2 ++ tail) ++ rest)). done.
Qed.

Lemma obj_put_fresh {A} (k : string) (v : A) acc later :
  distinct (map fst acc ++ k :: later) = true -> obj_put k v acc = acc ++ [(k, v)].
Proof.
  induction acc as [|a acc IH]; intros H; [done|].
  simpl in H. apply andb_true_iff in H as [Ha Hrest].
  apply negb_true_iff in Ha. rewrite existsb_app in Ha.
  apply orb_false_iff in Ha as [_ Ha]. simpl in Ha.
  apply orb_false_iff in Ha as [Ha _].
  simpl. rewrite Ha. by rewrite (IH Hrest).
Qed.

(** One turn of the loop over the members of an object. *)
Lemma parse_members_item pv n acc ws k body sv v X :
  forallb is_ws ws = true ->
  parse_string_body dquote body = Some (chars k, ":"%char :: " "%char :: sv ++ X) ->
  pv (" "%char :: sv ++ X) = Some (v, X) ->
  parse_members pv (S n) acc (ws ++ dquote :: body)
  = match skip_ws X with
    | [] => None
    | e :: r =>
        if Ascii.eqb e "," then parse_members pv n (obj_put k v acc) r
        else if Ascii.eqb e "}" then Some (TObj (obj_put k v acc), r)
        else None
    end.
Proof.
  intros Hws Hbody Hpv. cbn [parse_members].
  rewrite (skip_ws_app _ _ Hws), (skip_ws_head dquote) by done.
  change (Ascii.eqb dquote "}") with false. cbv iota.
  unfold parse_key. change (is_quote dquote) with true. cbv iota.
  rewrite Hbody. unfold chars. rewrite string_of_list_ascii_of_string.
  rewrite (skip_ws_head ":"%char) by done.
  change (Ascii.eqb ":" ":") with true. cbv iota.
  by rewrite Hpv.
Qed.

Lemma members_read pv indent rest ps ss :
  forallb is_ws indent = true ->
  Forall2 (member_reads_as pv) ps ss ->
  forall p s acc n,
    member_reads_as pv p s -> length ps < n ->
    distinct (map fst (acc ++ p :: ps)) = true ->
    parse_members pv n acc
      (newline :: (indent ++ gap) ++ s ++ layout_tail "}" indent ss ++ rest)
    = Some (TObj (acc ++ p :: ps), rest).
Proof.
  intros Hind Hall. induction Hall as [|p2 s2 ps ss H2 Hall IH];
    intros [k v] s acc n (Hk & sv & -> & Hread) Hn Hdist;
    (destruct n as [|n]; [simpl in Hn; lia|]); simpl fst in *; simpl snd in *;
    rewrite map_app in Hdist; simpl map in Hdist.
  - simpl layout_tail.
    set (X := newline :: indent ++ "}"%char :: rest).
    destruct (QuoteJSONString_read k (":"%char :: " "%char :: sv ++ X) Hk)
      as (body & Hq & Hbody).
    match goal with |- parse_members _ _ _ ?a = _ =>
      replace a with ((newline :: indent ++ gap) ++ dquote :: body)
        by (rewrite <- Hq; subst X; list_eq) end.
    rewrite (parse_members_item pv n acc (newline :: indent ++ gap) k body sv v X
               ltac:(simpl; by apply is_ws_gap) Hbody (Hread X ltac:(done))).
    subst X. change (newline :: indent ++ "}"%char :: rest)
      with ((newline :: indent) ++ "}"%char :: rest).
    rewrite skip_ws_app by (simpl; exact Hind).
    simpl. by rewrite (obj_put_fresh k v acc [] Hdist).
  - simpl layout_tail.
    set (X := ","%char :: newline :: (indent ++ gap) ++ s2 ++ layout_tail "}" indent ss ++ rest).
    destruct (QuoteJSONString_read k (":"%char :: " "%char :: sv ++ X) Hk)
      as (body & Hq & Hbody).
    match goal with |- parse_members _ _ _ ?a = _ =>
      replace a with ((newline :: indent ++ gap) ++ dquote :: body)
        by (rewrite <- Hq; subst X; list_eq) end.
    rewrite (parse_members_item pv n acc (newline :: indent ++ gap) k body sv v X
               ltac:(simpl; by apply is_ws_gap) Hbody (Hread X ltac:(done))).
    subst X. rewrite (skip_ws_head ","%char) by done.
    change (Ascii.eqb "," ",") with true. cbv iota.
    rewrite (obj_put_fresh k v acc _ Hdist).
    rewrite (IH p2 s2 (acc ++ [(k, v)]) n H2 ltac:(simpl in Hn; lia)).
    + by rewrite <- app_assoc.
    + rewrite <- app_assoc. simpl. rewrite map_app. exact Hdist.
Qed.

Lemma size_pos t : 1 <= size t.
Proof. destruct t; simpl; lia. Qed.

Lemma size_elems ts :
  let total := fold_right (fun t n => size t + n) 0 ts in
  length ts <= total /\ Forall (fun t => size t <= total) ts.
Proof.
  induction ts as [|t ts [IH1 IH2]]; simpl; [by split|].
  pose proof (size_pos t). split; [lia|]. constructor; [lia|].
  eapply Forall_impl; [exact IH2|]. simpl. intros. lia.
Qed.

Lemma size_members (ps : list (string * tree)) :
  let total := fold_right (fun p n => size (snd p) + n) 0 ps in
  length ps <= total /\ Forall (fun p => size (snd p) <= total) ps.
Proof.
  induction ps as [|p ps [IH1 IH2]]; simpl; [by split|].
  pose proof (size_pos (snd p)). split; [lia|]. constructor; [lia|].
  eapply Forall_impl; [exact IH2|]. simpl. intros. lia.
Qed.

Lemma parts_read pv indent ts :
  Forall (reads pv (indent ++ gap)) ts ->
  Forall2 (reads_as pv) ts
    (map (fun t => default (chars "null") (SerializeJSONProperty (indent ++ gap) t)) ts).
Proof.
  induction 1 as [|t ts (s & Hs & Hr) _ IH]; simpl; constructor; [|done].
  by rewrite Hs.
Qed.

Lemma member_parts_read fuel indent (ps : list (string * tree)) :
  forallb is_ws indent = true ->
  Forall (fun p => ascii_only (fst p) = true
                   /\ reads (parse_value fuel) (indent ++ gap) (snd p)) ps ->
  Forall2 (member_reads_as (parse_value fuel)) ps
    (omap (fun p => (fun str => QuoteJSONString (fst p) ++ ":"%char :: " "%char :: str)
                      <$> SerializeJSONProperty (indent ++ gap) (snd p)) ps).
Proof.
  intros Hind. induction 1 as [|p ps (Hk & s & Hs & Hstart & Hr) _ IH]; [constructor|].
  cbn [omap list_omap]. rewrite Hs. simpl. constructor; [|exact IH].
  split; [done|]. exists s. split; [done|]. intros rest Hrest.
  rewrite <- (Hr rest Hrest).
  apply (parse_value_ws fuel [" "%char]). done.
Qed.

(** The text of a tree of the fragment without [NaN] and the infinities
    is read back as the tree, at every indentation, with as many levels
    as the tree has nodes, whatever follows that is not a digit. *)
Lemma reads_back t :
  in_fragment t = true -> finite t = true ->
  forall indent fuel,
    forallb is_ws indent = true -> size t <= fuel ->
    reads (parse_value fuel) indent t.
Proof.
  induction t as [| |b|n|s|ts IH|ps IH] using tree_ind;
    intros Hfrag Hfin indent fuel Hind Hfuel.
  - discriminate Hfrag.
  - destruct fuel as [|fuel]; [simpl in Hfuel; lia|].
    exists (chars "null"). split; [done|]. split; [by eexists _, _|]. done.
  - destruct fuel as [|fuel]; [simpl in Hfuel; lia|].
    destruct b.
    + exists (chars "true"). split; [done|]. split; [by eexists _, _|]. done.
    + exists (chars "false"). split; [done|]. split; [by eexists _, _|]. done.
  - destruct n as [| |z]; try discriminate Hfin. by apply number_reads.
  - by apply string_reads.
  - destruct fuel as [|fuel]; [simpl in Hfuel; lia|].
    simpl in Hfrag, Hfin, Hfuel.
    destruct (size_elems ts) as [Hlen Hsizes]. simpl in Hlen, Hsizes.
    assert (Forall (reads (parse_value fuel) (indent ++ gap)) ts) as Hreads.
    { rewrite List.Forall_forall in *. intros t Hin.
      apply IH; [done| | |by apply is_ws_gap|].
      - by apply (proj1 (List.forallb_forall _ _) Hfrag).
      - by apply (proj1 (List.forallb_forall _ _) Hfin).
      - specialize (Hsizes t Hin). simpl in Hsizes. lia. }
    apply parts_read in Hreads.
    unfold reads. rewrite serialize_arr. eexists. split; [reflexivity|].
    destruct ts as [|t ts].
    + split; [by eexists _, _|]. intros rest _.
      destruct fuel as [|fuel]; [lia|]. done.
    + set (part := fun t => default (chars "null")
                                (SerializeJSONProperty (indent ++ gap) t)) in *.
      simpl map in *. rewrite layout_cons.
      apply Forall2_cons_1 in Hreads as [Ht Hts].
      split; [by eexists _, _|]. intros rest _.
      cbn [app parse_value]. rewrite (skip_ws_head "["%char) by done.
      change (Ascii.eqb "[" "[") with true. cbv iota.
      match goal with |- parse_elements _ _ _ ?a = _ =>
        replace a with (newline :: (indent ++ gap) ++ part t
                          ++ layout_tail "]" indent (map part ts) ++ rest)
          by list_eq end.
      rewrite (elements_read _ indent rest ts _ Hind Hts t _ [] fuel Ht); [done|].
      simpl in Hlen, Hfuel. lia.
  - destruct fuel as [|fuel]; [simpl in Hfuel; lia|].
    simpl in Hfrag, Hfin, Hfuel. apply andb_true_iff in Hfrag as [Hdist Hfrag].
    destruct (size_members ps) as [Hlen Hsizes]. simpl in Hlen, Hsizes.
    assert (Forall (fun p => ascii_only (fst p) = true
                             /\ reads (parse_value fuel) (indent ++ gap) (snd p)) ps)
      as Hreads.
    { rewrite List.Forall_forall in *. intros p Hin.
      pose proof (proj1 (List.forallb_forall _ _) Hfrag p Hin) as Hp. simpl in Hp.
      apply andb_true_iff in Hp as [Hkey Hp].
      unfold key_ok in Hkey. apply andb_true_iff in Hkey as [Hkey _].
      apply andb_true_iff in Hkey as [Hkey _].
      split; [done|].
      apply IH; [done|done| |by apply is_ws_gap|].
      - by apply (proj1 (List.forallb_forall _ _) Hfin p).
      - specialize (Hsizes p Hin). simpl in Hsizes. lia. }
    apply (member_parts_read fuel indent ps Hind) in Hreads.
    unfold reads. rewrite serialize_obj. eexists. split; [reflexivity|].
    remember (omap _ ps) as parts eqn:Hparts. clear Hparts IH Hfrag Hfin Hsizes.
    destruct Hreads as [|p s ps ss Hp Hps].
    + split; [by eexists _, _|]. intros rest _.
      destruct fuel as [|fuel]; [lia|]. done.
    + rewrite layout_cons.
      split; [by eexists _, _|]. intros rest _.
      cbn [app parse_value]. rewrite (skip_ws_head "{"%char) by done.
      change (Ascii.eqb "{" "[") with false. change (Ascii.eqb "{" "{") with true.
      cbv iota.
      match goal with |- parse_members _ _ _ ?a = _ =>
        replace a with (newline :: (indent ++ gap) ++ s ++ layout_tail "}" indent ss ++ rest)
          by list_eq end.
      rewrite (members_read _ indent rest ps ss Hind Hps p s [] fuel Hp); [done| |done].
      simpl in Hlen, Hfuel. lia.
Qed.

Lemma length_layout_tail close indent parts :
  fold_right (fun p n => length p + n) 0 parts
  <= length (layout_tail close indent parts).
Proof.
  induction parts as [|p ps IH]; simpl; [lia|].
  rewrite !length_app. lia.
Qed.

Lemma length_layout open close indent parts :
  2 + fold_right (fun p n => length p + n) 0 parts
  <= length (layout open close indent parts).
Proof.
  destruct parts as [|p ps]; [simpl; lia|].
  rewrite layout_cons. pose proof (length_layout_tail close indent ps).
  simpl. rewrite !length_app. lia.
Qed.

Lemma serialize_in_fragment t indent :
  in_fragment t = true -> exists s, SerializeJSONProperty indent t = Some s.
Proof.
  destruct t as [| |[]| | | |]; intros H; try discriminate H; by eexists.
Qed.

(** The text of a tree has at least as many characters as the tree has
    nodes, so the levels that [parse_text] allows suffice. *)
Lemma text_size t :
  in_fragment t = true ->
  forall indent s, SerializeJSONProperty indent t = Some s -> size t <= length s.
Proof.
  induction t as [| |b|n|str|ts IH|ps IH] using tree_ind; intros Hfrag indent s Hs.
  - discriminate Hfrag.
  - injection Hs as <-. simpl. lia.
  - destruct b; injection Hs as <-; simpl; lia.
  - injection Hs as <-. destruct n as [| |z]; try (simpl; lia).
    destruct z as [|p|p]; simpl size; simpl number_to_json; simpl int_to_chars.
    + simpl. lia.
    + destruct (parse_magnitude_digits (Npos p) [] I) as (_ & c & r & -> & _). simpl. lia.
    + simpl. lia.
  - injection Hs as <-. unfold QuoteJSONString. simpl. lia.
  - rewrite serialize_arr in Hs. injection Hs as <-.
    simpl in Hfrag. simpl size.
    etransitivity; [|apply length_layout].
    apply le_n_S, le_n_S.
    induction IH as [|t ts Ht _ IHts]; [done|].
    simpl in Hfrag. apply andb_true_iff in Hfrag as [Hf1 Hf2].
    destruct (serialize_in_fragment t (indent ++ gap) Hf1) as (s & Hs).
    simpl. rewrite Hs. simpl.
    pose proof (Ht Hf1 _ _ Hs). specialize (IHts Hf2). lia.
  - rewrite serialize_obj in Hs. injection Hs as <-.
    simpl in Hfrag. apply andb_true_iff in Hfrag as [_ Hfrag]. simpl size.
    etransitivity; [|apply length_layout].
    apply le_n_S, le_n_S.
    induction IH as [|p ps Hp _ IHps]; [done|].
    simpl in Hfrag. apply andb_true_iff in Hfrag as [Hf1 Hf2].
    apply andb_true_iff in Hf1 as [_ Hf1].
    destruct (serialize_in_fragment (snd p) (indent ++ gap) Hf1) as (s & Hs).
    cbn [omap list_omap]. rewrite Hs. simpl.
    rewrite length_app. simpl.
    pose proof (Hp Hf1 _ _ Hs). specialize (IHps Hf2). lia.
Qed.

(** What [JSON.stringify(t, null, 2)] writes for a tree of the fragment
    without [NaN] and the infinities, [parse] reads as [t]. *)
Lemma parse_stringify t :
  in_fragment t = true -> finite t = true ->
  exists s, SerializeJSONProperty [] t = Some s
            /\ parse (string_of_list_ascii s) = Some t.
Proof.
  intros Hfrag Hfin.
  destruct (serialize_in_fragment t [] Hfrag) as (s & Hs).
  exists s. split; [exact Hs|].
  pose proof (text_size t Hfrag [] s Hs) as Hsize.
  destruct (reads_back t Hfrag Hfin [] (S (length s)) eq_refl ltac:(lia))
    as (s' & Hs' & _ & Hread).
  rewrite Hs in Hs'. injection Hs' as <-.
  unfold parse, parse_text, chars. rewrite list_ascii_of_string_of_list_ascii.
  specialize (Hread [] I). rewrite app_nil_r in Hread.
  rewrite Hread. simpl. by rewrite Hfrag.
Qed.

Lemma parse_in_fragment T t : parse T = Some t -> in_fragment t = true.
Proof.
  unfold parse. destruct (parse_text _) as [t'|]; [|done].
  destruct (in_fragment t') eqn:H; [|done]. by intros [= <-].
Qed.

End Roundtrip.

(** ** formatInput followed by validate *)

Lemma validate_document json5_parse st t :
  json5_parse (editor_value st) = Some t ->
  document (validate json5_parse st).2 = Some t.
Proof.
  intros H. rewrite (validate_parsed _ _ _ H). apply snapshot_alloc.
Qed.




(** The same inside a container. *)
Example format_roundtrip_Infinity :
  let st := type_text JSON5.parse "{big: [-Infinity]}" fresh in
  document st = Some (TObj [("big", TArr [TNum (Infinity true)])])
  /\ exists st', formatInput JSON5.parse st = Returns st'
                 /\ document st' = Some (TObj [("big", TArr [TNull])]).
Proof. vm_compute. split; [reflexivity|]. eexists. split; reflexivity. Qed.

(** A filter that only reads leaves the document as it was. *)
Lemma runFilter_keeps_data_witness :
  let st := session (json_text "{'a':1}") (Some ".z") in
  let st1 := runFilter Script.vm_run jq_rejects st in
  (Script.vm_run (code_of (default "" (filter_val st))) (sandbox_of st) (store st)).2
  = store st
  /\ data st1 = data st
  /\ document st1 = document st.
Proof.
  intros st st1.
  assert ((Script.vm_run (code_of (default "" (filter_val st))) (sandbox_of st) (store st)).2
          = store st) as Hsame by (vm_compute; reflexivity).
  destruct (runFilter_keeps_data Script.vm_run jq_rejects st) as (Hd & _ & _ & Hdoc).
  split; [exact Hsame|]. split; [exact Hd|]. exact (Hdoc Hsame).
Defined.

(** * Further properties of the class *)

(** ** What the store keeps *)

Lemma snapshot_ext h ext v t :
  snapshot h v = Some t -> snapshot (h ++ ext) v = Some t.
Proof.
  unfold snapshot. intros H.
  eapply snapshot_at_mono; [|by apply snapshot_at_ext]. rewrite length_app. lia.
Qed.

Lemma validate_store json5_parse st :
  exists ext, store (validate json5_parse st).2 = store st ++ ext.
Proof.
  unfold validate. destruct (json5_parse _) as [t|].
  - destruct (alloc_extends t (store st)) as [ext He].
    destruct (alloc t (store st)) as [v h]. simpl in *. eauto.
  - exists []. simpl. by rewrite app_nil_r.
Qed.

Lemma setValue_store json5_parse arg st :
  exists ext, store (setValue json5_parse arg st) = store st ++ ext.
Proof.
  unfold setValue. destruct arg as [s|]; simpl.
  - destruct (listening st).
    + apply (validate_store json5_parse (set_editor_value s (log_setValue (Some s) st))).
    + exists []. simpl. by rewrite app_nil_r.
  - exists []. by rewrite app_nil_r.
Qed.

Lemma formatInput_store json5_parse st st' :
  formatInput json5_parse st = Returns st' -> exists ext, store st' = store st ++ ext.
Proof.
  unfold formatInput. destruct (negb _).
  - destruct (JSON_stringify _ _) as [arg|]; [|done]. intros [= <-]. apply setValue_store.
  - intros [= <-]. exists []. by rewrite app_nil_r.
Qed.

Lemma settle_store i st st' :
  settle i st = Some st' -> exists ext, store st' = store st ++ ext.
Proof.
  unfold settle. destruct (pending st !! i) as [o|]; [|done]. intros [= <-].
  destruct o as [t|]; simpl.
  - destruct (tree_is_null t); simpl; [exists []; by rewrite app_nil_r|].
    destruct (alloc_extends t (store st)) as [ext He].
    destruct (alloc t (store st)) as [v h]. simpl in *. eauto.
  - exists []. by rewrite app_nil_r.
Qed.

(** X1.  [validate()], [formatInput()] and the settling of a promise only
    add objects to the store: a value that denoted a tree before, such as
    the result handed out with an earlier [filter-valid], denotes the
    same tree afterwards, whatever the new document is. *)
Theorem references_survive (json5_parse : string -> option tree)
    (st : Editor) (v : value) (t : tree) :
  snapshot (store st) v = Some t ->
  snapshot (store (validate json5_parse st).2) v = Some t
  /\ (forall st', formatInput json5_parse st = Returns st' ->
        snapshot (store st') v = Some t)
  /\ (forall i st', settle i st = Some st' -> snapshot (store st') v = Some t).
Proof.
  intros H. split; [|split].
  - destruct (validate_store json5_parse st) as [ext ->]. by apply snapshot_ext.
  - intros st' Hf. destruct (formatInput_store _ _ _ Hf) as [ext ->]. by apply snapshot_ext.
  - intros i st' Hs. destruct (settle_store _ _ _ Hs) as [ext ->]. by apply snapshot_ext.
Qed.

Lemma references_survive_witness :
  let st := set_editor_value "{b: 2}" (run_session "{a: [1]}" (Some ".a")) in
  emitted st = [InputValid; FilterValid (VRef 0) "js"]
  /\ snapshot (store st) (VRef 0) = Some (TArr [TNum (Int 1)])
  /\ document (validate JSON5.parse st).2 = Some (TObj [("b", TNum (Int 2))])
  /\ snapshot (store (validate JSON5.parse st).2) (VRef 0) = Some (TArr [TNum (Int 1)]).
Proof.
  intros st.
  assert (snapshot (store st) (VRef 0) = Some (TArr [TNum (Int 1)])) as H
    by (vm_compute; reflexivity).
  split; [vm_compute; reflexivity|]. split; [exact H|].
  split; [vm_compute; reflexivity|].
  exact (proj1 (references_survive JSON5.parse st _ _ H)).
Defined.

(** ** The constructor *)

(** X2.  A new editor starts silent: it holds the welcome text, which
    went in through [setValue] before the handlers were installed, so
    nothing has been parsed or emitted and no promise is outstanding.
    The same [setValue] on the finished editor does run [validate()]. *)
Theorem constructor_silent (welcomeMessage : string)
    (json5_parse : string -> option tree) (el : string) (filter : option string) :
  let st := constructor welcomeMessage json5_parse el filter in
  (editor_value st = welcomeMessage /\ setValue_calls st = [Some welcomeMessage]
   /\ emitted st = [] /\ pending st = [] /\ store st = []
   /\ filter_val st = filter /\ listening st = true)
  /\ (forall t, json5_parse welcomeMessage = Some t ->
        emitted (setValue json5_parse (Some welcomeMessage) st) = [InputValid]
        /\ document (setValue json5_parse (Some welcomeMessage) st) = Some t).
Proof.
  split; [by repeat split|].
  intros t Ht. unfold setValue. simpl.
  set (st1 := set_editor_value welcomeMessage _).
  assert (json5_parse (editor_value st1) = Some t) as Hp by exact Ht.
  split; [|by apply validate_document].
  by rewrite (validate_parsed _ _ _ Hp).
Qed.

Lemma constructor_silent_witness :
  let st := constructor "[1]" JSON5.parse "" None in
  JSON5.parse "[1]" = Some (TArr [TNum (Int 1)])
  /\ emitted st = []
  /\ emitted (setValue JSON5.parse (Some "[1]") st) = [InputValid].
Proof.
  intros st.
  assert (JSON5.parse "[1]" = Some (TArr [TNum (Int 1)])) as Hp by (vm_compute; reflexivity).
  split; [exact Hp|]. split; [reflexivity|].
  exact (proj1 (proj2 (constructor_silent "[1]" JSON5.parse "" None) _ Hp)).
Defined.

(** ** The paste handler *)

Lemma formatInput_document json5_parse st t s :
  document st = Some t -> t <> TNull -> SerializeJSONProperty [] t = Some s ->
  formatInput json5_parse st
  = Returns (setValue json5_parse (Some (string_of_list_ascii s)) st).
Proof.
  intros Hdoc Hnn Hser. unfold formatInput.
  rewrite (document_not_null _ _ Hdoc Hnn). simpl.
  unfold JSON_stringify. unfold document in Hdoc. by rewrite Hdoc, Hser.
Qed.

(** X3.  A paste of text that does not parse ends in [data = null] and
    nothing else: the pasted text stays in the editor as it is, no event
    is emitted and [setValue] is not called.  An [inputRead] of another
    origin does nothing at all. *)
Theorem paste_malformed (json5_parse : string -> option tree) (st : Editor) :
  json5_parse (editor_value st) = None ->
  on_inputRead json5_parse "paste" st = Returns (set_data VNull st)
  /\ (forall origin, origin <> "paste" -> on_inputRead json5_parse origin st = Returns st).
Proof.
  intros H. split.
  - unfold on_inputRead. simpl. rewrite (validate_failed _ _ H). done.
  - intros origin Hne. unfold on_inputRead.
    destruct (String.eqb_spec "paste" origin) as [<-|_]; [done|done].
Qed.

Lemma paste_malformed_witness :
  let st := set_editor_value "{a: 1" (session "[1]" None) in
  JSON5.parse (editor_value st) = None
  /\ data st = VRef 0
  /\ on_inputRead JSON5.parse "paste" st = Returns (set_data VNull st)
  /\ editor_value (set_data VNull st) = "{a: 1".
Proof.
  intros st.
  assert (JSON5.parse (editor_value st) = None) as H by (vm_compute; reflexivity).
  split; [exact H|]. split; [reflexivity|].
  split; [exact (proj1 (paste_malformed JSON5.parse st H)) | reflexivity].
Defined.

(** X4.  A paste of text that parses to a document other than [null]
    validates first and formats second: the editor ends up holding the
    serialization of the document just pasted, [setValue] is called once,
    and since that call makes the editor signal [change], [validate()]
    runs a second time on the formatted text, with a second
    [input-valid] when it parses. *)
Theorem paste_formats (json5_parse : string -> option tree)
    (st : Editor) (t : tree) (s : list ascii) :
  listening st = true ->
  json5_parse (editor_value st) = Some t -> t <> TNull ->
  SerializeJSONProperty [] t = Some s ->
  exists st',
    on_inputRead json5_parse "paste" st = Returns st'
    /\ editor_value st' = string_of_list_ascii s
    /\ setValue_calls st' = setValue_calls st ++ [Some (string_of_list_ascii s)]
    /\ match json5_parse (string_of_list_ascii s) with
       | Some t' =>
           emitted st' = emitted st ++ [InputValid; InputValid]
           /\ document st' = Some t'
       | None => emitted st' = emitted st ++ [InputValid] /\ data st' = VNull
       end.
Proof.
  intros Hl Hp Hnn Hser. unfold on_inputRead. simpl.
  pose proof (validate_document _ _ _ Hp) as Hdoc.
  rewrite (formatInput_document _ _ _ _ Hdoc Hnn Hser).
  eexists. split; [reflexivity|].
  destruct (setValue_editor_value json5_parse (string_of_list_ascii s)
              (validate json5_parse st).2) as [Hv Hc].
  split; [exact Hv|]. split; [by rewrite Hc, validate_setValue_calls|].
  unfold setValue.
  set (st2 := set_editor_value _ (log_setValue _ _)).
  assert (listening st2 = true) as ->.
  { subst st2. simpl. rewrite (validate_parsed _ _ _ Hp). exact Hl. }
  assert (emitted st2 = emitted st ++ [InputValid]) as Hem.
  { subst st2. simpl. by rewrite (validate_parsed _ _ _ Hp). }
  destruct (json5_parse (string_of_list_ascii s)) as [t'|] eqn:Hp'.
  - assert (json5_parse (editor_value st2) = Some t') as Hp2 by exact Hp'.
    split; [|by apply validate_document].
    rewrite (validate_parsed _ _ _ Hp2).
    change (emitted st2 ++ [InputValid] = emitted st ++ [InputValid; InputValid]).
    rewrite Hem. by rewrite <- app_assoc.
  - assert (json5_parse (editor_value st2) = None) as Hp2 by exact Hp'.
    rewrite (validate_failed _ _ Hp2). done.
Qed.

Lemma paste_formats_witness :
  let st := set_editor_value "{a:[1,2]}" fresh in
  let s := chars "{" ++ newline :: chars "  " ++ dquote :: chars "a" ++ dquote
           :: chars ": [" ++ newline :: chars "    1," ++ newline :: chars "    2"
           ++ newline :: chars "  ]" ++ newline :: chars "}" in
  exists st',
    on_inputRead JSON5.parse "paste" st = Returns st'
    /\ editor_value st' = string_of_list_ascii s
    /\ emitted st' = [InputValid; InputValid]
    /\ document st' = Some (TObj [("a", TArr [TNum (Int 1); TNum (Int 2)])]).
Proof.
  intros st s.
  destruct (paste_formats JSON5.parse st
              (TObj [("a", TArr [TNum (Int 1); TNum (Int 2)])]) s
              eq_refl ltac:(vm_compute; reflexivity) ltac:(discriminate) eq_refl)
    as (st' & Hr & Hv & _ & Hm).
  exists st'. split; [exact Hr|]. split; [exact Hv|].
  assert (JSON5.parse (string_of_list_ascii s)
          = Some (TObj [("a", TArr [TNum (Int 1); TNum (Int 2)])])) as Hp
    by (vm_compute; reflexivity).
  rewrite Hp in Hm. exact Hm.
Defined.

(** ** formatInput once more *)

(** X5.  Formatting is idempotent on what [validate()] has parsed: when
    the document holds no [NaN] and no infinity, a second [formatInput()]
    writes the text the first one wrote and leaves the same document. *)
Theorem formatInput_idempotent (st0 : Editor) (t : tree) :
  let st := (validate JSON5.parse st0).2 in
  JSON5.parse (editor_value st0) = Some t -> finite t = true ->
  exists st1 st2,
    formatInput JSON5.parse st = Returns st1
    /\ formatInput JSON5.parse st1 = Returns st2
    /\ editor_value st2 = editor_value st1
    /\ document st2 = document st1.
Proof.
  intros st Hparse Hfin.
  assert (document st = Some t) as Hdoc by (by apply validate_document).
  destruct (is_null (data st)) eqn:Hnull.
  { exists st, st. unfold formatInput. rewrite Hnull. simpl. done. }
  assert (t <> TNull) as Hnn.
  { intros ->. unfold document, snapshot in Hdoc.
    destruct (data st); simpl in *; try done.
    destruct (store st !! l) as [[|]|]; simpl in Hdoc; [| |done].
    - by destruct (mapM _ props).
    - by destruct (mapM _ elems). }
  destruct (parse_stringify t (parse_in_fragment _ _ Hparse) Hfin) as (s & Hs & Hback).
  set (str := string_of_list_ascii s) in *.
  assert (forall st', document (setValue JSON5.parse (Some str) st') = Some t
                      \/ document (setValue JSON5.parse (Some str) st') = document st')
    as Hset.
  { intros st'. unfold setValue. simpl. destruct (listening st').
    - left. by apply validate_document.
    - by right. }
  exists (setValue JSON5.parse (Some str) st),
         (setValue JSON5.parse (Some str) (setValue JSON5.parse (Some str) st)).
  assert (document (setValue JSON5.parse (Some str) st) = Some t) as Hdoc1.
  { destruct (Hset st) as [H|H]; [done|by rewrite H]. }
  split; [exact (formatInput_document _ _ t s Hdoc Hnn Hs)|].
  split; [exact (formatInput_document _ _ t s Hdoc1 Hnn Hs)|].
  split.
  - by rewrite !(proj1 (setValue_editor_value _ _ _)).
  - destruct (Hset (setValue JSON5.parse (Some str) st)) as [H|H]; by rewrite H.
Qed.

Lemma formatInput_idempotent_witness :
  let st0 := set_editor_value "{k: ['v', 0]}" fresh in
  let st := (validate JSON5.parse st0).2 in
  exists st1 st2,
    formatInput JSON5.parse st = Returns st1
    /\ formatInput JSON5.parse st1 = Returns st2
    /\ editor_value st1 <> editor_value st
    /\ editor_value st2 = editor_value st1
    /\ document st2 = document st1.
Proof.
  intros st0 st.
  destruct (formatInput_idempotent st0 (TObj [("k", TArr [TStr "v"; TNum (Int 0)])])
              ltac:(vm_compute; reflexivity) eq_refl) as (st1 & st2 & H1 & H2 & Hv & Hd).
  exists st1, st2. split; [exact H1|]. split; [exact H2|].
  split; [|split; [exact Hv | exact Hd]].
  revert H1. vm_compute. intros [= <-]. discriminate.
Defined.

(** ** runFilter and the widgets *)

(** X7.  Whatever the filter and whatever the evaluators do,
    [runFilter()] leaves the editor's text, the filter text and the
    record of [setValue] calls alone, never emits [input-valid], and
    answers the call with exactly one thing: one event, or one promise. *)
Theorem runFilter_frame
    (vm_run : string -> sandbox -> heap -> completion sandbox * heap)
    (jq_run : string -> heap -> value -> jq_outcome) (st : Editor) :
  let st1 := runFilter vm_run jq_run st in
  editor_value st1 = editor_value st
  /\ filter_val st1 = filter_val st
  /\ listening st1 = listening st
  /\ setValue_calls st1 = setValue_calls st
  /\ exists es ps,
       emitted st1 = emitted st ++ es /\ pending st1 = pending st ++ ps
       /\ length es + length ps = 1
       /\ Forall (fun e => e <> InputValid) es.
Proof.
  unfold runFilter. destruct (filter_is_empty _).
  - repeat split. exists [FilterEmpty], []. simpl. rewrite app_nil_r.
    repeat split. by constructor.
  - cbv zeta. destruct (vm_run _ _ _) as [[sb'|] h].
    + destruct (truthy _); repeat split;
        [ exists [FilterValid (result sb') "js"], []
        | exists [FilterInvalid], [] ];
        simpl; rewrite app_nil_r; repeat split; by constructor.
    + repeat split. eexists [], [_]. simpl. rewrite app_nil_r. repeat split. constructor.
Qed.

(** ** Once parsed, never undefined *)

Lemma alloc_defined t h : t <> TUndefined -> (alloc t h).1 <> VUndefined.
Proof.
  destruct t; try done.
  - intros _. rewrite alloc_arr. by destruct (alloc_list _ _).
  - intros _. rewrite alloc_obj. by destruct (alloc_props _ _).
Qed.

Section Defined.

Variable json5_parse : string -> option tree.
Variable vm_run : string -> sandbox -> heap -> completion sandbox * heap.
Variable jq_run : string -> heap -> value -> jq_outcome.

(** What [json5.parse] returns is never [undefined]. *)
Hypothesis parse_defined : forall text, json5_parse text <> Some TUndefined.

Lemma validate_defined st : data (validate json5_parse st).2 <> VUndefined.
Proof.
  unfold validate. destruct (json5_parse (editor_value st)) as [t|] eqn:Hp; [|done].
  pose proof (alloc_defined t (store st)) as Ha.
  destruct (alloc t (store st)) as [v h]. simpl in *. apply Ha.
  intros ->. by apply (parse_defined (editor_value st)).
Qed.

Lemma setValue_defined arg st :
  data st <> VUndefined -> data (setValue json5_parse arg st) <> VUndefined.
Proof.
  intros Hd. unfold setValue. destruct arg as [s|]; [|done]. simpl.
  destruct (listening st); [apply validate_defined|done].
Qed.

Lemma formatInput_defined st st' :
  data st <> VUndefined -> formatInput json5_parse st = Returns st' ->
  data st' <> VUndefined.
Proof.
  intros Hd. unfold formatInput. destruct (negb _); [|by intros [= <-]].
  destruct (JSON_stringify _ _) as [arg|]; [|done]. intros [= <-].
  by apply setValue_defined.
Qed.

Lemma step_defined st st' :
  data st <> VUndefined -> step json5_parse vm_run jq_run st st' ->
  data st' <> VUndefined.
Proof.
  intros Hd Hstep.
  destruct Hstep as [s st|f st|st|origin st st' Hr|st|i st st' Hs|st st' Hf].
  - done.
  - done.
  - apply validate_defined.
  - unfold on_inputRead in Hr. destruct (String.eqb "paste" origin).
    + exact (formatInput_defined _ _ (validate_defined st) Hr).
    + by injection Hr as <-.
  - unfold on_keyup. by rewrite runFilter_data.
  - by destruct (settle_outcome _ _ _ Hs) as (_ & _ & ->).
  - by apply (formatInput_defined st).
Qed.

Lemma steps_defined st st' :
  data st <> VUndefined -> rtc (step json5_parse vm_run jq_run) st st' ->
  data st' <> VUndefined.
Proof.
  intros Hd Hsteps. induction Hsteps as [st|st st1 st2 Hstep _ IH]; [done|].
  apply IH. by apply (step_defined st).
Qed.

End Defined.

(** X8.  [this.data] is [undefined] only until the editor signals
    [change] for the first time: from then on, whatever is typed,
    pasted, filtered, formatted or settled, the field is never
    [undefined] again (it is [null] or a value that [json5.parse]
    returned). *)
Theorem data_stays_defined (json5_parse : string -> option tree)
    (vm_run : string -> sandbox -> heap -> completion sandbox * heap)
    (jq_run : string -> heap -> value -> jq_outcome) (st0 st : Editor) :
  (forall text, json5_parse text <> Some TUndefined) ->
  rtc (step json5_parse vm_run jq_run) (on_change json5_parse st0) st ->
  data st <> VUndefined.
Proof.
  intros Hparse Hsteps.
  exact (steps_defined json5_parse vm_run jq_run Hparse _ _
           (validate_defined json5_parse Hparse st0) Hsteps).
Qed.

Lemma JSON5_parse_defined text : JSON5.parse text <> Some TUndefined.
Proof. intros H. by apply parse_in_fragment in H. Qed.

Lemma data_stays_defined_witness :
  let st0 := set_editor_value "oops" fresh in
  let st1 := on_change JSON5.parse st0 in
  let st2 := set_filter_val (Some ".a = 5") (set_editor_value "{a: 1}" st1) in
  let st3 := on_keyup Script.vm_run jq_rejects (on_change JSON5.parse st2) in
  data st0 = VUndefined
  /\ data st1 = VNull
  /\ exists st4,
       formatInput JSON5.parse st3 = Returns st4 /\ data st4 <> VUndefined.
Proof.
  intros st0 st1 st2 st3. split; [reflexivity|]. split; [reflexivity|].
  destruct (formatInput JSON5.parse st3) as [st4|] eqn:Hf;
    [|vm_compute in Hf; discriminate Hf].
  exists st4. split; [reflexivity|].
  apply (data_stays_defined JSON5.parse Script.vm_run jq_rejects st0 st4
           JSON5_parse_defined).
  eapply rtc_l; [apply (step_edit_text _ _ _ "{a: 1}")|].
  eapply rtc_l; [apply (step_edit_filter _ _ _ (Some ".a = 5"))|].
  eapply rtc_l; [apply step_change|].
  eapply rtc_l; [apply step_keyup|].
  eapply rtc_l; [apply step_formatInput; exact Hf|].
  apply rtc_refl.
Defined.

(** ** Promises settle in their own order *)

(** X9.  Nothing orders the promises of two runs: when the later request
    settles first, its [filter-valid] is emitted first and the result of
    the earlier request arrives last. *)
Theorem settle_out_of_order (st : Editor) (t1 t2 : tree) (rest : list jq_outcome) :
  pending st = Resolved t1 :: Resolved t2 :: rest ->
  tree_is_null t1 = false -> tree_is_null t2 = false ->
  exists sta stb v1 v2,
    settle 1 st = Some sta /\ settle 0 sta = Some stb
    /\ emitted stb = emitted st ++ [FilterValid v2 "jq"; FilterValid v1 "jq"]
    /\ snapshot (store stb) v1 = Some t1
    /\ snapshot (store stb) v2 = Some t2
    /\ pending stb = rest.
Proof.
  intros Hp H1 H2.
  set (st' := set_pending (Resolved t1 :: rest) st).
  set (sta := emit (FilterValid (alloc t2 (store st)).1 "jq")
                (set_store (alloc t2 (store st)).2 st')).
  set (sta' := set_pending rest sta).
  set (stb := emit (FilterValid (alloc t1 (store sta)).1 "jq")
                (set_store (alloc t1 (store sta)).2 sta')).
  assert (settle 1 st = Some sta) as Ha.
  { unfold settle. rewrite Hp. simpl. rewrite H2. fold st'.
    subst sta. by destruct (alloc t2 (store st)). }
  assert (settle 0 sta = Some stb) as Hb.
  { unfold settle. simpl. rewrite H1. fold sta'.
    subst stb. by destruct (alloc t1 _). }
  exists sta, stb, (alloc t1 (store sta)).1, (alloc t2 (store st)).1.
  split; [exact Ha|]. split; [exact Hb|].
  split; [simpl; by rewrite <- app_assoc|].
  split; [apply snapshot_alloc|]. split; [|done].
  simpl. destruct (alloc_extends t1 (alloc t2 (store st)).2) as [ext ->].
  apply snapshot_ext, snapshot_alloc.
Qed.

Lemma settle_out_of_order_witness :
  let st := type_filter Script.vm_run jq_echo (Some ".b.d")
              (type_filter Script.vm_run jq_echo (Some ".b.c")
                 (session (json_text "{'a':1}") None)) in
  pending st = [Resolved (TStr ".b.c"); Resolved (TStr ".b.d")]
  /\ exists sta stb v1 v2,
       settle 1 st = Some sta /\ settle 0 sta = Some stb
       /\ emitted stb = emitted st ++ [FilterValid v2 "jq"; FilterValid v1 "jq"]
       /\ snapshot (store stb) v1 = Some (TStr ".b.c")
       /\ snapshot (store stb) v2 = Some (TStr ".b.d")
       /\ pending stb = [].
Proof.
  intros st.
  assert (pending st = [Resolved (TStr ".b.c"); Resolved (TStr ".b.d")]) as Hp
    by (vm_compute; reflexivity).
  split; [exact Hp|].
  exact (settle_out_of_order st _ _ _ Hp eq_refl eq_refl).
Defined.

(** ** Outcomes are neither lost nor made up *)

Lemma validate_outcomes json5_parse st :
  outcomes (validate json5_parse st).2 = outcomes st.
Proof.
  unfold validate, outcomes. destruct (json5_parse _) as [t|]; [|done].
  destruct (alloc t (store st)) as [v h]. simpl.
  rewrite terminal_count_app. unfold terminal_count at 2. simpl. lia.
Qed.

Lemma formatInput_outcomes json5_parse st st' :
  formatInput json5_parse st = Returns st' -> outcomes st' = outcomes st.
Proof.
  unfold formatInput. destruct (negb _); [|by intros [= <-]].
  destruct (JSON_stringify _ _) as [arg|]; [|done]. intros [= <-].
  unfold setValue. destruct arg as [s|]; [|done]. simpl.
  destruct (listening st); [|done].
  by rewrite validate_outcomes.
Qed.

Section Accounting.

Variable json5_parse : string -> option tree.
Variable vm_run : string -> sandbox -> heap -> completion sandbox * heap.
Variable jq_run : string -> heap -> value -> jq_outcome.

(** The actions are the steps of the editor in use. *)
Lemma perform_step a st st' :
  perform json5_parse vm_run jq_run a st = Some st' ->
  step json5_parse vm_run jq_run st st'.
Proof.
  destruct a as [s|f| |origin| |i| ]; simpl.
  - intros [= <-]. constructor.
  - intros [= <-]. constructor.
  - intros [= <-]. constructor.
  - destruct (on_inputRead _ _ _) as [st1|] eqn:Hr; [|done].
    intros [= <-]. by apply (step_inputRead _ _ _ origin).
  - intros [= <-]. constructor.
  - intros Hs. by apply (step_settle _ _ _ i).
  - destruct (formatInput _ _) as [st1|] eqn:Hf; [|done].
    intros [= <-]. by apply step_formatInput.
Qed.

Lemma step_perform st st' :
  step json5_parse vm_run jq_run st st' ->
  exists a, perform json5_parse vm_run jq_run a st = Some st'.
Proof.
  intros Hstep.
  destruct Hstep as [s st|f st|st|origin st st' Hr|st|i st st' Hs|st st' Hf].
  - by exists (EditText s).
  - by exists (EditFilter f).
  - by exists Change.
  - exists (InputRead origin). simpl. by rewrite Hr.
  - by exists Keyup.
  - by exists (Settle i).
  - exists FormatInput. simpl. by rewrite Hf.
Qed.

Lemma steps_perform_all st st' :
  rtc (step json5_parse vm_run jq_run) st st' ->
  exists acts, perform_all json5_parse vm_run jq_run acts st = Some st'.
Proof.
  induction 1 as [st|st st1 st2 Hstep _ [acts IH]]; [by exists []|].
  destruct (step_perform _ _ Hstep) as [a Ha].
  exists (a :: acts). simpl. by rewrite Ha.
Qed.

(** [runFilter()] answers a filter text with one event or one promise,
    and an absent or empty one with neither. *)
Lemma on_keyup_outcomes st :
  outcomes (on_keyup vm_run jq_run st)
  = (if filter_is_empty (filter_val st) then 0 else 1) + outcomes st.
Proof.
  unfold on_keyup, runFilter, outcomes.
  destruct (filter_is_empty (filter_val st)).
  - simpl. rewrite terminal_count_app. unfold terminal_count at 2. simpl. lia.
  - cbv zeta. destruct (vm_run _ _ _) as [[sb'|] h].
    + destruct (truthy _); simpl; rewrite terminal_count_app;
        unfold terminal_count at 2; simpl; lia.
    + simpl. rewrite length_app. simpl. lia.
Qed.

Lemma perform_outcomes a st st' :
  perform json5_parse vm_run jq_run a st = Some st' ->
  outcomes st' = requested a st + outcomes st.
Proof.
  destruct a as [s|f| |origin| |i| ]; simpl.
  - by intros [= <-].
  - by intros [= <-].
  - intros [= <-]. apply validate_outcomes.
  - destruct (on_inputRead _ _ _) as [st1|] eqn:Hr; [|done]. intros [= <-].
    unfold on_inputRead in Hr. destruct (String.eqb "paste" origin).
    + rewrite (formatInput_outcomes _ _ _ Hr). apply validate_outcomes.
    + by injection Hr as <-.
  - intros [= <-]. apply on_keyup_outcomes.
  - intros Hs. destruct (settle_outcome _ _ _ Hs) as (He & Hp & _).
    unfold outcomes. lia.
  - destruct (formatInput _ _) as [st1|] eqn:Hf; [|done]. intros [= <-].
    by apply (formatInput_outcomes json5_parse).
Qed.

Lemma perform_all_outcomes acts st st' :
  perform_all json5_parse vm_run jq_run acts st = Some st' ->
  outcomes st' = outcomes st + requests json5_parse vm_run jq_run acts st.
Proof.
  revert st. induction acts as [|a acts IH]; intros st; simpl.
  - intros [= <-]. lia.
  - destruct (perform _ _ _ a st) as [st1|] eqn:Ha; [|done]. intros Hall.
    rewrite (IH _ Hall), (perform_outcomes _ _ _ Ha). lia.
Qed.

(** Once every promise has settled, the account is all events. *)
Lemma drain_outcomes st :
  terminal_count (emitted (drain st)) = outcomes st /\ pending (drain st) = [].
Proof.
  destruct (settles_drain st) as [Hs Hp]. split; [|done].
  destruct (settles_outcomes _ _ Hs) as [Ho _]. rewrite Hp in Ho.
  unfold outcomes. simpl in Ho. lia.
Qed.

End Accounting.

(** X10.  Over a whole session (text and filter edits, [change],
    [inputRead] and [keyup] events, settlings of promises and calls of
    [formatInput()], in any order and number) no outcome is lost and none
    is made up: the [filter-valid] and [filter-invalid] events emitted
    plus the promises outstanding grow by exactly the number of key-ups
    in the filter field that found text in it, and once the outstanding
    promises have settled that is the number of outcome events emitted
    during the session. *)
Theorem outcomes_accounting (json5_parse : string -> option tree)
    (vm_run : string -> sandbox -> heap -> completion sandbox * heap)
    (jq_run : string -> heap -> value -> jq_outcome)
    (acts : list action) (st st' : Editor) :
  perform_all json5_parse vm_run jq_run acts st = Some st' ->
  outcomes st' = outcomes st + requests json5_parse vm_run jq_run acts st
  /\ terminal_count (emitted (drain st'))
     = outcomes st + requests json5_parse vm_run jq_run acts st
  /\ pending (drain st') = [].
Proof.
  intros Hall. pose proof (perform_all_outcomes _ _ _ _ _ _ Hall) as Ho.
  destruct (drain_outcomes st') as [Hd Hp].
  split; [exact Ho|]. split; [|exact Hp]. by rewrite Hd.
Qed.

Lemma outcomes_accounting_witness :
  let acts := [EditText "{a: 1}"; Change;
               EditFilter (Some ".a"); Keyup;
               EditFilter (Some ""); Keyup;
               EditFilter (Some ".b.c"); Keyup;
               EditFilter (Some ".b"); Keyup;
               InputRead "paste"; Settle 0] in
  requests JSON5.parse Script.vm_run jq_rejects acts fresh = 3
  /\ exists st',
       perform_all JSON5.parse Script.vm_run jq_rejects acts fresh = Some st'
       /\ List.filter terminal (emitted st')
          = [FilterValid (VNum (Int 1)) "js"; FilterInvalid; FilterInvalid]
       /\ outcomes st' = outcomes fresh + 3
       /\ terminal_count (emitted (drain st')) = outcomes fresh + 3
       /\ pending (drain st') = [].
Proof.
  intros acts. split; [vm_compute; reflexivity|].
  destruct (perform_all JSON5.parse Script.vm_run jq_rejects acts fresh)
    as [st'|] eqn:Hall; [|vm_compute in Hall; discriminate Hall].
  exists st'. split; [reflexivity|].
  split; [vm_compute in Hall; injection Hall as <-; vm_compute; reflexivity|].
  pose proof (outcomes_accounting JSON5.parse Script.vm_run jq_rejects
                acts fresh st' Hall) as H.
  assert (requests JSON5.parse Script.vm_run jq_rejects acts fresh = 3) as Hn
    by (vm_compute; reflexivity).
  rewrite Hn in H. exact H.
Defined.
